(** * fusao_mercados_fev: load, harmonize, union, save

    A shallow embedding of [pipeline_dados/dev/scripts/fusao_mercados_fev.py].
    The script sequences calls to a distributed-dataframe engine (PySpark).
    The four stage functions are translated line by line into a small
    trace-and-exception monad.  What they rely on but do not define is taken
    as a parameter of the development:

    - [lower], Python's [str.lower];
    - [fold], the folding behind the engine's comparison of names in a
      session that ignores letter case, and [dup_key], the key of its
      check for repeated names;
    - [widerType] and [cast_cell], the engine's reconciliation of the types
      of two united columns.

    Every theorem of the development holds for all of them.  Tables are
    materialised: the engine jobs behind [show] and [count] are taken to
    run, so that a statement that a stage returns a table is a statement
    about runs in which they do. *)

From Stdlib Require Import String Ascii List Bool Arith ZArith Lia.
From Stdlib Require Import DecimalString.
Import ListNotations.
Local Open Scope string_scope.
Local Open Scope list_scope.

(** ** Tables *)

Inductive DataType := BooleanType | LongType | StringType.

Inductive Value :=
| VBool (b : bool)
| VLong (z : Z)
| VString (s : string).

(** A cell is a value or null. *)
Definition Cell := option Value.

Record Column := mkColumn {
  name : string;
  dtype : DataType;
  cells : list Cell
}.

(** A table: its columns in schema order, its row count (kept apart so
    that a table without columns still has one), and the name-resolution
    setting of the session it belongs to ([spark.sql.caseSensitive],
    [false] unless configured otherwise). *)
Record DataFrame := mkDataFrame {
  caseSensitive : bool;
  nrows : nat;
  cols : list Column
}.

Inductive Exn :=
| AttributeError (attr : string)
| AnalysisException (reason : string)
| EngineFailure (reason : string).

Inductive Outcome (A : Type) :=
| Return (a : A)
| Raise (e : Exn).
Arguments Return {A} a.
Arguments Raise {A} e.

(** [df.columns] *)
Definition columns (df : DataFrame) : list string := map name (cols df).

(** [df.count()] *)
Definition count (df : DataFrame) : nat := nrows df.

(** Every column holds one cell per row. *)
Definition well_formed (df : DataFrame) : Prop :=
  Forall (fun c => length (cells c) = nrows df) (cols df).

Definition rename_to (new : string) (c : Column) : Column :=
  {| name := new; dtype := dtype c; cells := cells c |}.

(** Column expressions; the script builds only [lit(None).cast(t)]. *)
Inductive ColumnExpr :=
| LitNullCast (t : DataType).

Definition eval_column (n : nat) (colName : string) (e : ColumnExpr)
  : Column :=
  match e with
  | LitNullCast t =>
      {| name := colName; dtype := t; cells := repeat None n |}
  end.

Definition pad_right_only (n1 : nat) (c2 : Column) : Column :=
  {| name := name c2; dtype := dtype c2;
     cells := repeat None n1 ++ cells c2 |}.

(** [x in xs] on a Python list of strings. *)
Definition str_in (x : string) (xs : list string) : bool :=
  existsb (String.eqb x) xs.

(** ** Console output and engine calls

    Each [print] of the script is one message constructor; the engine calls
    that touch storage or run a set operation are recorded next to them, so
    that a run leaves a trace of what it printed and what it asked of the
    engine, in order. *)

Inductive FileFormat := Json | Csv | Parquet.

Definition Options := list (string * string).

Inductive Msg :=
(* load_dataframe *)
| MsgTryRead (path : string)
| MsgUnsupportedRead (file_type : string)
| MsgReadOk (path : string)
| MsgSchemaHeader
| MsgFirst5Header
| MsgTotalRecords (n : nat)
| MsgReadError (path : string) (e : Exn)
| MsgCheckReadPath
(* process_dataframe *)
| MsgProcessStart
| MsgRenamed (old_name new_name : string)
| MsgRenameSkipped (old_name : string)
| MsgAddedNull (col : string)
| MsgAlreadyExists (col : string)
| MsgProcessedSchemaHeader
| MsgProcessedFirst5Header
| MsgProcessedRecords (n : nat)
| MsgProcessedColumns (n : nat)
| MsgProcessDone
(* union_dataframes *)
| MsgUnionNull
| MsgUnionStart
| MsgUnionOk
| MsgUnionSchemaHeader
| MsgUnionFirst10Header
| MsgUnionRecords (n : nat)
| MsgUnionDone
| MsgUnionError (e : Exn)
| MsgUnionCheckTypes
(* save_dataframe *)
| MsgSaveNull
| MsgTrySave (output_path file_format : string)
| MsgUnsupportedSave (file_format : string)
| MsgSaveOk (output_path : string)
| MsgSaveError (output_path : string) (e : Exn)
| MsgCheckWritePath.

Inductive Event :=
| EvPrint (m : Msg)
| EvPrintSchema (schema : list (string * DataType))
| EvShow (n : nat)
| EvRead (fmt : FileFormat) (options : Options) (path : string)
| EvUnionByName (allowMissingColumns : bool)
| EvWrite (fmt : FileFormat) (mode : string) (options : Options)
          (path : string).

(** ** The monad of a stage: a trace, then a value or an exception *)

Definition M (A : Type) : Type := (list Event * Outcome A)%type.

Definition ret {A} (a : A) : M A := ([], Return a).

Definition bind {A B} (m : M A) (f : A -> M B) : M B :=
  match m with
  | (t, Raise e) => (t, Raise e)
  | (t, Return a) => let (t', o) := f a in (t ++ t', o)
  end.

Definition raise {A} (e : Exn) : M A := ([], Raise e).

Definition emit (ev : Event) : M unit := ([ev], Return tt).

Definition print (m : Msg) : M unit := emit (EvPrint m).

Definition lift {A} (o : Outcome A) : M A := ([], o).

(** [try: body except Exception as e: handler e] *)
Definition try_except {A} (body : M A) (handler : Exn -> M A) : M A :=
  match body with
  | (t, Raise e) => let (t', o) := handler e in (t ++ t', o)
  | (t, Return a) => (t, Return a)
  end.

Definition trace {A} (m : M A) : list Event := fst m.
Definition outcome {A} (m : M A) : Outcome A := snd m.

Declare Scope stage_scope.
Delimit Scope stage_scope with stage.
Notation "x <- m ;; k" := (bind m (fun x => k))
  (at level 61, m at next level, right associativity) : stage_scope.
Notation "m ;; k" := (bind m (fun _ => k))
  (at level 61, right associativity) : stage_scope.
Local Open Scope stage_scope.

(** [for x in xs: s = body(s, x)] *)
Fixpoint for_each {A S} (body : S -> A -> M S) (s : S) (xs : list A) : M S :=
  match xs with
  | [] => ret s
  | x :: rest => s' <- body s x ;; for_each body s' rest
  end.

(** ** Python objects of the script *)

(** A variable annotated [DataFrame] holds a table or [None]. *)
Definition PyDF := option DataFrame.

(** [if options:] is taken for a non-empty dict only. *)
Definition truthy (options : option Options) : bool :=
  match options with
  | Some (_ :: _) => true
  | _ => false
  end.

Definition items (options : option Options) : Options :=
  match options with
  | Some kvs => kvs
  | None => []
  end.

(** Attribute access and method calls on a [PyDF]; on [None] they raise. *)
Definition attr_columns (o : PyDF) : M (list string) :=
  match o with
  | Some d => ret (columns d)
  | None => raise (AttributeError "columns")
  end.

Definition schema_of (d : DataFrame) : list (string * DataType) :=
  map (fun c => (name c, dtype c)) (cols d).

Definition printSchema (d : DataFrame) : M unit :=
  emit (EvPrintSchema (schema_of d)).

(** [df.show(n)]; the table is materialised, so the job behind it runs. *)
Definition show (d : DataFrame) (n : nat) : M unit := emit (EvShow n).

Definition call_printSchema (o : PyDF) : M unit :=
  match o with
  | Some d => printSchema d
  | None => raise (AttributeError "printSchema")
  end.

Definition call_show (o : PyDF) (n : nat) : M unit :=
  match o with
  | Some d => show d n
  | None => raise (AttributeError "show")
  end.

Definition call_count (o : PyDF) : M nat :=
  match o with
  | Some d => ret (count d)
  | None => raise (AttributeError "count")
  end.

(** ** Readers and writers *)

(** The session handle: what reading a path in a format with given options
    yields on the storage the session sees. *)
Record SparkSession := mkSparkSession {
  appName : string;
  master : string;
  source : FileFormat -> Options -> string -> Outcome DataFrame
}.

Record DataFrameReader := mkReader {
  reader_session : SparkSession;
  reader_options : Options
}.

(** [spark.read] *)
Definition spark_read (spark : SparkSession) : DataFrameReader :=
  {| reader_session := spark; reader_options := [] |}.

(** [reader.option(key, value)] *)
Definition reader_option (r : DataFrameReader) (kv : string * string)
  : DataFrameReader :=
  {| reader_session := reader_session r;
     reader_options := reader_options r ++ [kv] |}.

(** [reader.json(path)], [reader.csv(path)] *)
Definition reader_load (fmt : FileFormat) (r : DataFrameReader)
           (path : string) : M DataFrame :=
  emit (EvRead fmt (reader_options r) path) ;;
  lift (source (reader_session r) fmt (reader_options r) path).

(** Lines 60-66: the report printed once the table is read. *)
Definition load_report (path : string) (df : DataFrame) : M PyDF :=
  print (MsgReadOk path) ;;
  print MsgSchemaHeader ;;
  printSchema df ;;
  print MsgFirst5Header ;;
  show df 5 ;;
  print (MsgTotalRecords (count df)) ;;
  ret (Some df).

Record DataFrameWriter := mkWriter {
  writer_df : DataFrame;
  writer_mode : string;
  writer_options : Options
}.

(** [df.write] *)
Definition df_write (d : DataFrame) : DataFrameWriter :=
  {| writer_df := d; writer_mode := "errorifexists"; writer_options := [] |}.

(** [writer.mode(m)] *)
Definition set_mode (w : DataFrameWriter) (m : string) : DataFrameWriter :=
  {| writer_df := writer_df w; writer_mode := m;
     writer_options := writer_options w |}.

(** [writer.option(key, value)] *)
Definition writer_option (w : DataFrameWriter) (kv : string * string)
  : DataFrameWriter :=
  {| writer_df := writer_df w; writer_mode := writer_mode w;
     writer_options := writer_options w ++ [kv] |}.

(** ** Instances of the parameters, for runs on concrete tables

    On names made of ASCII characters Python's [str.lower] and the engine's
    folding both lowercase the letters A to Z and change nothing else; that
    is [ascii_lower].  [fold_long_s] does the same and, as the engine does,
    also folds the long s (U+017F, the bytes 197 191 in UTF-8) with s;
    [str.lower] leaves the long s as it is, as [ascii_lower] does. *)

Definition lower_ascii (c : ascii) : ascii :=
  let n := nat_of_ascii c in
  if ((65 <=? n)%nat && (n <=? 90)%nat)%bool then ascii_of_nat (n + 32) else c.

Fixpoint ascii_lower (s : string) : string :=
  match s with
  | EmptyString => EmptyString
  | String c r => String (lower_ascii c) (ascii_lower r)
  end.

Definition long_s : string :=
  String (ascii_of_nat 197) (String (ascii_of_nat 191) EmptyString).

Fixpoint fold_long_s (s : string) : string :=
  match s with
  | EmptyString => EmptyString
  | String c r =>
      match r with
      | String c' r' =>
          if ((nat_of_ascii c =? 197)%nat && (nat_of_ascii c' =? 191)%nat)%bool
          then String "s" (fold_long_s r')
          else String (lower_ascii c) (fold_long_s r)
      | EmptyString => String (lower_ascii c) EmptyString
      end
  end.

(** A type reconciliation for the sample unions: equal types unify, a long
    unifies with a string as a string, a boolean unifies with nothing but
    itself.  The samples use it on equal types and on a long against a
    boolean only. *)
Definition legacy_widerType (a b : DataType) : option DataType :=
  match a, b with
  | BooleanType, BooleanType => Some BooleanType
  | LongType, LongType => Some LongType
  | StringType, StringType => Some StringType
  | LongType, StringType | StringType, LongType => Some StringType
  | _, _ => None
  end.

Definition string_of_Z (z : Z) : string :=
  NilZero.string_of_int (Z.to_int z).

Definition cast_value (t : DataType) (v : Value) : Value :=
  match t, v with
  | StringType, VLong z => VString (string_of_Z z)
  | StringType, VBool b => VString (if b then "true" else "false")
  | _, _ => v
  end.

Definition legacy_cast (t : DataType) (c : Cell) : Cell :=
  option_map (cast_value t) c.

(** ** Sample tables

    Two market tables in a session with the default name resolution: the
    first with columns [id, name], the second with columns [ID, city]. *)

Definition markets_a : DataFrame :=
  {| caseSensitive := false;
     nrows := 2;
     cols := [ {| name := "id"; dtype := LongType;
                  cells := [Some (VLong 1); Some (VLong 2)] |};
               {| name := "name"; dtype := StringType;
                  cells := [Some (VString "Ana"); None] |} ] |}.

Definition markets_b : DataFrame :=
  {| caseSensitive := false;
     nrows := 1;
     cols := [ {| name := "ID"; dtype := LongType;
                  cells := [Some (VLong 3)] |};
               {| name := "city"; dtype := StringType;
                  cells := [Some (VString "Recife")] |} ] |}.

(** A table whose two column names differ by letter case only, in a
    session that ignores case. *)
Definition case_twins : DataFrame :=
  {| caseSensitive := false;
     nrows := 1;
     cols := [ {| name := "a"; dtype := LongType;
                  cells := [Some (VLong 1)] |};
               {| name := "A"; dtype := LongType;
                  cells := [Some (VLong 2)] |} ] |}.

(** The same first table in a case-sensitive session. *)
Definition markets_a_cs : DataFrame :=
  {| caseSensitive := true; nrows := nrows markets_a;
     cols := cols markets_a |}.

(** Tables on columns [x, y] and [y, z]; in [right_yz_flag] the shared
    column is boolean where [left_xy] has a long. *)
Definition left_xy : DataFrame :=
  {| caseSensitive := false;
     nrows := 2;
     cols := [ {| name := "x"; dtype := LongType;
                  cells := [Some (VLong 1); Some (VLong 2)] |};
               {| name := "y"; dtype := LongType;
                  cells := [Some (VLong 10); Some (VLong 20)] |} ] |}.

Definition right_yz : DataFrame :=
  {| caseSensitive := false;
     nrows := 1;
     cols := [ {| name := "y"; dtype := LongType;
                  cells := [Some (VLong 30)] |};
               {| name := "z"; dtype := StringType;
                  cells := [Some (VString "k")] |} ] |}.

Definition right_yz_flag : DataFrame :=
  {| caseSensitive := false;
     nrows := 1;
     cols := [ {| name := "y"; dtype := BooleanType;
                  cells := [Some (VBool true)] |};
               {| name := "z"; dtype := StringType;
                  cells := [Some (VString "k")] |} ] |}.

(** A session whose storage holds nothing readable, and a storage that
    accepts every write. *)
Definition empty_session : SparkSession :=
  {| appName := "DataPipeline"; master := "local[*]";
     source := fun _ _ _ => Raise (AnalysisException "path does not exist") |}.

Definition accepting_sink (fmt : FileFormat) (mode : string)
           (options : Options) (path : string) (d : DataFrame)
  : Outcome unit :=
  Return tt.


(** A table with the single column [s], and one with the single column
    [x], in a session with the default name resolution. *)
Definition table_s : DataFrame :=
  {| caseSensitive := false;
     nrows := 2;
     cols := [ {| name := "s"; dtype := LongType;
                  cells := [Some (VLong 7); Some (VLong 8)] |} ] |}.

Definition table_x : DataFrame :=
  {| caseSensitive := false;
     nrows := 1;
     cols := [ {| name := "x"; dtype := LongType;
                  cells := [Some (VLong 1)] |} ] |}.

Definition is_read (ev : Event) : bool :=
  match ev with EvRead _ _ _ => true | _ => false end.

Definition is_union (ev : Event) : bool :=
  match ev with EvUnionByName _ => true | _ => false end.

Definition is_write (ev : Event) : bool :=
  match ev with EvWrite _ _ _ _ => true | _ => false end.

(** Refutes membership of a literal in a literal list. *)
Ltac not_in_list :=
  let H := fresh "H" in
  intros H; cbn in H; repeat (destruct H as [H | H]; [discriminate|]);
  exact H.

(** ** The development, for any [str.lower] and any engine folding and
    typing *)

Section Pipeline.

(** Python's [str.lower]. *)
Variable lower : string -> string.

(** The engine's folding of a name in a session that ignores letter case:
    there two names match exactly when they fold to the same string.
    Nothing relates it to [lower]. *)
Variable fold : string -> string.

(** The key by which the engine looks for a repeated column name before a
    union, in a session that ignores letter case (it lowercases the names
    and compares). *)
Variable dup_key : string -> string.

(** The engine's common type for two united columns, if it finds one, and
    its cast of a cell to that type. *)
Variable widerType : DataType -> DataType -> option DataType.
Variable cast_cell : DataType -> Cell -> Cell.

(** *** The engine: renaming, literal columns, union by name *)

(** The session's name resolver: exact match when the session is case
    sensitive, match of the folded names otherwise. *)
Definition resolver (cs : bool) (a b : string) : bool :=
  if cs then String.eqb a b else String.eqb (fold a) (fold b).

(** [df.withColumnRenamed(existing, new)]: every column the resolver
    matches with [existing] takes the name [new]; a no-op when none does. *)
Definition withColumnRenamed (df : DataFrame) (existing new : string)
  : DataFrame :=
  {| caseSensitive := caseSensitive df;
     nrows := nrows df;
     cols := map (fun c => if resolver (caseSensitive df) (name c) existing
                           then rename_to new c else c) (cols df) |}.

(** [df.withColumn(colName, e)]: columns the resolver matches with
    [colName] are replaced (and take the name [colName]); when there is
    none the new column is appended. *)
Definition withColumn (df : DataFrame) (colName : string) (e : ColumnExpr)
  : DataFrame :=
  let cs := caseSensitive df in
  let c' := eval_column (nrows df) colName e in
  {| caseSensitive := cs;
     nrows := nrows df;
     cols := if existsb (fun c => resolver cs (name c) colName) (cols df)
             then map (fun c => if resolver cs (name c) colName
                                then c' else c) (cols df)
             else cols df ++ [c'] |}.

Fixpoint has_duplicate (cs : bool) (names : list string) : bool :=
  match names with
  | [] => false
  | n :: rest => existsb (resolver cs n) rest || has_duplicate cs rest
  end.

(** The check a union starts with: is a name repeated, exactly in a
    case-sensitive session, up to [dup_key] otherwise. *)
Definition same_key (cs : bool) (a b : string) : bool :=
  if cs then String.eqb a b else String.eqb (dup_key a) (dup_key b).

Fixpoint duplicate_check (cs : bool) (names : list string) : bool :=
  match names with
  | [] => false
  | n :: rest => existsb (same_key cs n) rest || duplicate_check cs rest
  end.

Definition find_column (cs : bool) (n : string) (l : list Column)
  : option Column :=
  find (fun c => resolver cs (name c) n) l.

(** One column of the left table, extended with the rows of the right
    table: the matching right column when there is one, nulls otherwise. *)
Definition align_left (cs allowMissing : bool) (n2 : nat)
           (right : list Column) (c1 : Column) : Outcome Column :=
  match find_column cs (name c1) right with
  | Some c2 =>
      match widerType (dtype c1) (dtype c2) with
      | Some t =>
          Return {| name := name c1; dtype := t;
                    cells := map (cast_cell t) (cells c1)
                             ++ map (cast_cell t) (cells c2) |}
      | None => Raise (AnalysisException "incompatible column types")
      end
  | None =>
      if allowMissing
      then Return {| name := name c1; dtype := dtype c1;
                     cells := cells c1 ++ repeat None n2 |}
      else Raise (AnalysisException "column missing in the right table")
  end.

Fixpoint align_all (cs allowMissing : bool) (n2 : nat)
         (right left : list Column) : Outcome (list Column) :=
  match left with
  | [] => Return []
  | c1 :: rest =>
      match align_left cs allowMissing n2 right c1 with
      | Raise e => Raise e
      | Return c =>
          match align_all cs allowMissing n2 right rest with
          | Raise e => Raise e
          | Return cs' => Return (c :: cs')
          end
      end
  end.

(** The right table's columns that no left column matches. *)
Definition right_only (cs : bool) (left right : list Column)
  : list Column :=
  filter (fun c2 => negb (existsb (fun c1 => resolver cs (name c1) (name c2))
                                  left)) right.

(** [df1.unionByName(df2, allowMissingColumns)]: refused when the
    duplicate check finds a name repeated within one side or when two
    matched columns have no common type; otherwise the left columns in
    order, then the right-only ones, rows of the left table first.  (The
    alignment is the engine's when no two columns of a side match for the
    resolver, which is what the statements on its result assume.) *)
Definition unionByName (df1 df2 : DataFrame) (allowMissingColumns : bool)
  : Outcome DataFrame :=
  let cs := caseSensitive df1 in
  if duplicate_check cs (columns df1)
  then Raise (AnalysisException "duplicate column in the left table")
  else if duplicate_check cs (columns df2)
  then Raise (AnalysisException "duplicate column in the right table")
  else
    match align_all cs allowMissingColumns (nrows df2) (cols df2) (cols df1)
    with
    | Raise e => Raise e
    | Return lefts =>
        let extra := right_only cs (cols df1) (cols df2) in
        match extra, allowMissingColumns with
        | _ :: _, false =>
            Raise (AnalysisException "column missing in the left table")
        | _, _ =>
            Return {| caseSensitive := cs;
                      nrows := nrows df1 + nrows df2;
                      cols := lefts ++ map (pad_right_only (nrows df1))
                                           extra |}
        end
    end.

Definition call_withColumnRenamed (o : PyDF) (existing new : string)
  : M PyDF :=
  match o with
  | Some d => ret (Some (withColumnRenamed d existing new))
  | None => raise (AttributeError "withColumnRenamed")
  end.

Definition call_withColumn (o : PyDF) (colName : string) (e : ColumnExpr)
  : M PyDF :=
  match o with
  | Some d => ret (Some (withColumn d colName e))
  | None => raise (AttributeError "withColumn")
  end.

(** *** load_dataframe *)

Definition load_dataframe (spark : SparkSession) (path file_type : string)
           (options : option Options) : M PyDF :=
  print (MsgTryRead path) ;;
  try_except
    (let reader := spark_read spark in
     let reader := if truthy options
                   then fold_left reader_option (items options) reader
                   else reader in
     if lower file_type =? "json" then
       df <- reader_load Json reader path ;; load_report path df
     else if lower file_type =? "csv" then
       df <- reader_load Csv reader path ;; load_report path df
     else
       print (MsgUnsupportedRead file_type) ;; ret None)
    (fun e =>
       print (MsgReadError path e) ;;
       print MsgCheckReadPath ;;
       ret None).

(** *** process_dataframe *)

(** Lines 91-95: one turn of the renaming loop. *)
Definition rename_step (processed_df : PyDF) (kv : string * string)
  : M PyDF :=
  let (old_name, new_name) := kv in
  cs <- attr_columns processed_df ;;
  if str_in old_name cs then
    processed_df' <- call_withColumnRenamed processed_df old_name new_name ;;
    print (MsgRenamed old_name new_name) ;;
    ret processed_df'
  else
    print (MsgRenameSkipped old_name) ;;
    ret processed_df.

(** Lines 100-104: one turn of the required-columns loop; [current_columns]
    is the list computed once at line 98. *)
Definition require_step (current_columns : list string) (processed_df : PyDF)
           (col : string) : M PyDF :=
  if negb (str_in (lower col) current_columns) then
    processed_df' <- call_withColumn processed_df col
                                     (LitNullCast StringType) ;;
    print (MsgAddedNull col) ;;
    ret processed_df'
  else
    print (MsgAlreadyExists col) ;;
    ret processed_df.

Definition process_dataframe (df : PyDF) (mapping : list (string * string))
           (required_columns : list string) : M PyDF :=
  print MsgProcessStart ;;
  let processed_df := df in
  processed_df <- for_each rename_step processed_df mapping ;;
  cs <- attr_columns processed_df ;;
  let current_columns := map lower cs in
  processed_df <- for_each (require_step current_columns) processed_df
                           required_columns ;;
  print MsgProcessedSchemaHeader ;;
  call_printSchema processed_df ;;
  print MsgProcessedFirst5Header ;;
  call_show processed_df 5 ;;
  n <- call_count processed_df ;;
  print (MsgProcessedRecords n) ;;
  cs' <- attr_columns processed_df ;;
  print (MsgProcessedColumns (length cs')) ;;
  print MsgProcessDone ;;
  ret processed_df.

(** *** union_dataframes *)

(** [df1.unionByName(df2, allowMissingColumns=...)] as an engine call. *)
Definition call_unionByName (d1 d2 : DataFrame) (allowMissingColumns : bool)
  : M DataFrame :=
  emit (EvUnionByName allowMissingColumns) ;;
  lift (unionByName d1 d2 allowMissingColumns).

Definition union_dataframes (df1 df2 : PyDF) : M PyDF :=
  match df1, df2 with
  | Some d1, Some d2 =>
      print MsgUnionStart ;;
      try_except
        (unified_df <- call_unionByName d1 d2 true ;;
         print MsgUnionOk ;;
         print MsgUnionSchemaHeader ;;
         printSchema unified_df ;;
         print MsgUnionFirst10Header ;;
         show unified_df 10 ;;
         print (MsgUnionRecords (count unified_df)) ;;
         print MsgUnionDone ;;
         ret (Some unified_df))
        (fun e =>
           print (MsgUnionError e) ;;
           print MsgUnionCheckTypes ;;
           ret None)
  | _, _ =>
      print MsgUnionNull ;;
      ret None
  end.

(** *** save_dataframe *)

Section Writer.

(** What the storage answers to a write of a table in a format, mode and
    options at a path: done, or an error. *)
Variable sink :
  FileFormat -> string -> Options -> string -> DataFrame -> Outcome unit.

(** [writer.csv(path)], [writer.parquet(path)], [writer.json(path)] *)
Definition writer_save (fmt : FileFormat) (w : DataFrameWriter)
           (path : string) : M unit :=
  emit (EvWrite fmt (writer_mode w) (writer_options w) path) ;;
  lift (sink fmt (writer_mode w) (writer_options w) path (writer_df w)).

(** Lines 193-194. *)
Definition save_done (output_path : string) : M bool :=
  print (MsgSaveOk output_path) ;; ret true.

Definition save_dataframe (df : PyDF) (output_path file_format : string)
           (options : option Options) : M bool :=
  match df with
  | None =>
      print MsgSaveNull ;;
      ret false
  | Some d =>
      print (MsgTrySave output_path file_format) ;;
      try_except
        (let writer := set_mode (df_write d) "overwrite" in
         let writer := if truthy options
                       then fold_left writer_option (items options) writer
                       else writer in
         if lower file_format =? "csv" then
           writer_save Csv writer output_path ;; save_done output_path
         else if lower file_format =? "parquet" then
           writer_save Parquet writer output_path ;; save_done output_path
         else if lower file_format =? "json" then
           writer_save Json writer output_path ;; save_done output_path
         else
           print (MsgUnsupportedSave file_format) ;; ret false)
        (fun e =>
           print (MsgSaveError output_path e) ;;
           print MsgCheckWritePath ;;
           ret false)
  end.

End Writer.

(** *** What [process_dataframe] computes on a table

    The two loops of [process_dataframe] as folds over tables, and the lines
    they print; [process_dataframe_Some] below shows that the stage, run on
    a table, returns exactly this. *)

Definition rename_pure (d : DataFrame) (kv : string * string) : DataFrame :=
  if str_in (fst kv) (columns d)
  then withColumnRenamed d (fst kv) (snd kv)
  else d.

Definition renamed (d : DataFrame) (mapping : list (string * string))
  : DataFrame :=
  fold_left rename_pure mapping d.

Fixpoint rename_log (d : DataFrame) (mapping : list (string * string))
  : list Event :=
  match mapping with
  | [] => []
  | kv :: rest =>
      EvPrint (if str_in (fst kv) (columns d)
               then MsgRenamed (fst kv) (snd kv)
               else MsgRenameSkipped (fst kv))
      :: rename_log (rename_pure d kv) rest
  end.

Definition require_pure (current_columns : list string) (d : DataFrame)
           (col : string) : DataFrame :=
  if negb (str_in (lower col) current_columns)
  then withColumn d col (LitNullCast StringType)
  else d.

Definition require_log (current_columns required : list string)
  : list Event :=
  map (fun col => EvPrint (if negb (str_in (lower col) current_columns)
                           then MsgAddedNull col
                           else MsgAlreadyExists col)) required.

Definition harmonized (d : DataFrame) (mapping : list (string * string))
           (required : list string) : DataFrame :=
  let r := renamed d mapping in
  fold_left (require_pure (map lower (columns r))) required r.

Definition process_report (d : DataFrame) : list Event :=
  [EvPrint MsgProcessedSchemaHeader; EvPrintSchema (schema_of d);
   EvPrint MsgProcessedFirst5Header; EvShow 5;
   EvPrint (MsgProcessedRecords (count d));
   EvPrint (MsgProcessedColumns (length (columns d)));
   EvPrint MsgProcessDone].

(** The all-null string column that line 101 builds. *)
Definition null_string_column (n : nat) (col : string) : Column :=
  {| name := col; dtype := StringType; cells := repeat None n |}.

(** What one executed [withColumn] of line 101 does to the columns added so
    far by the loop. *)
Definition extra_step (cs : bool) (n : nat) (extra : list Column)
           (col : string) : list Column :=
  if existsb (fun c => resolver cs (name c) col) extra
  then map (fun c => if resolver cs (name c) col
                     then null_string_column n col else c) extra
  else extra ++ [null_string_column n col].

(** Names without repetition up to the session's resolver. *)
Definition distinct_names (d : DataFrame) : Prop :=
  has_duplicate (caseSensitive d) (columns d) = false.

(** One executed [withColumnRenamed] seen from a column name. *)
Definition step_name (cs : bool) (old new n : string) : string :=
  if resolver cs n old then new else n.

(** The name a column called [n] in [d] carries once the renaming loop has
    run over [mapping]. *)
Fixpoint name_after (d : DataFrame) (mapping : list (string * string))
         (n : string) : string :=
  match mapping with
  | [] => n
  | kv :: rest =>
      name_after (rename_pure d kv) rest
                 (if str_in (fst kv) (columns d)
                  then step_name (caseSensitive d) (fst kv) (snd kv) n
                  else n)
  end.

(** The required names for which line 100 takes the branch of line 101. *)
Definition to_add (current_columns required : list string) : list string :=
  filter (fun col => negb (str_in (lower col) current_columns)) required.

(** No new name of the mapping is a key of the mapping, and none is matched
    by the key of another pair: no rename feeds another one, none renames a
    column to its own name.  (In a session that ignores letter case a new
    name may still be a case variant of its own key.) *)
Definition targets_fresh (cs : bool) (mapping : list (string * string))
  : bool :=
  forallb (fun kv =>
             forallb (fun k => negb (snd kv =? k)
                               && ((k =? fst kv)
                                   || negb (resolver cs (snd kv) k)))
                     (map fst mapping))
          mapping.

(** No key of the mapping is listed among the required columns. *)
Definition keys_not_required (mapping : list (string * string))
           (required : list string) : bool :=
  forallb (fun k => negb (str_in k required)) (map fst mapping).

(** *** What [union_dataframes] needs from its inputs *)

(** Every left column that has a match on the right has a common type with
    it. *)
Definition types_compatible (d1 d2 : DataFrame) : bool :=
  forallb (fun c1 =>
             match find_column (caseSensitive d1) (name c1) (cols d2) with
             | Some c2 =>
                 match widerType (dtype c1) (dtype c2) with
                 | Some _ => true
                 | None => false
                 end
             | None => true
             end) (cols d1).

(** The aligned left column when the alignment goes through. *)
Definition aligned (cs : bool) (n2 : nat) (right : list Column)
           (c1 : Column) : Column :=
  match align_left cs true n2 right c1 with
  | Return c => c
  | Raise _ => c1
  end.

Definition union_report (u : DataFrame) : list Event :=
  [EvPrint MsgUnionOk; EvPrint MsgUnionSchemaHeader;
   EvPrintSchema (schema_of u); EvPrint MsgUnionFirst10Header; EvShow 10;
   EvPrint (MsgUnionRecords (count u)); EvPrint MsgUnionDone].

(** *** Runs of the loader and the writer through one engine call *)

(** The run of [load_dataframe] that asks the engine for [path] in format
    [fmt]: the report and the table when the engine answers, the error
    lines and [None] when it raises. *)
Definition read_run (spark : SparkSession) (fmt : FileFormat)
           (path : string) (options : option Options) : M PyDF :=
  match source spark fmt (items options) path with
  | Return df =>
      ([EvPrint (MsgTryRead path); EvRead fmt (items options) path;
        EvPrint (MsgReadOk path); EvPrint MsgSchemaHeader;
        EvPrintSchema (schema_of df); EvPrint MsgFirst5Header; EvShow 5;
        EvPrint (MsgTotalRecords (count df))],
       Return (Some df))
  | Raise e =>
      ([EvPrint (MsgTryRead path); EvRead fmt (items options) path;
        EvPrint (MsgReadError path e); EvPrint MsgCheckReadPath],
       Return None)
  end.

(** The run of [save_dataframe] that asks the engine to write [d] at
    [output_path] in format [fmt], overwriting. *)
Definition write_run
           (sink : FileFormat -> string -> Options -> string -> DataFrame
                   -> Outcome unit)
           (fmt : FileFormat) (d : DataFrame)
           (output_path file_format : string) (options : option Options)
  : M bool :=
  match sink fmt "overwrite" (items options) output_path d with
  | Return _ =>
      ([EvPrint (MsgTrySave output_path file_format);
        EvWrite fmt "overwrite" (items options) output_path;
        EvPrint (MsgSaveOk output_path)],
       Return true)
  | Raise e =>
      ([EvPrint (MsgTrySave output_path file_format);
        EvWrite fmt "overwrite" (items options) output_path;
        EvPrint (MsgSaveError output_path e); EvPrint MsgCheckWritePath],
       Return false)
  end.

(** *** Dispatch on format tags, and kinds of engine calls *)

(** The format the loader asks for (lines 52-58): json, then csv. *)
Definition reader_format (file_type : string) : option FileFormat :=
  if lower file_type =? "json" then Some Json
  else if lower file_type =? "csv" then Some Csv
  else None.

(** The format the writer asks for (lines 183-191): csv, parquet, json. *)
Definition writer_format (file_format : string) : option FileFormat :=
  if lower file_format =? "csv" then Some Csv
  else if lower file_format =? "parquet" then Some Parquet
  else if lower file_format =? "json" then Some Json
  else None.

(** [extra_step] seen from the names of the added columns. *)
Definition names_step (cs : bool) (names : list string) (col : string)
  : list string :=
  if existsb (fun x => resolver cs x col) names
  then map (fun x => if resolver cs x col then col else x) names
  else names ++ [col].

(** Whether a resolver match of two names comes with equal lowercase
    forms, and whether it does for every name of one list against every
    name of another. *)
Definition agree (cs : bool) (a b : string) : bool :=
  implb (resolver cs a b) (lower a =? lower b).

Definition names_agree (cs : bool) (names others : list string) : bool :=
  forallb (fun a => forallb (agree cs a) others) names.

(** *** Strings and the resolver *)

Lemma str_in_In (x : string) (xs : list string) :
  str_in x xs = true <-> In x xs.
Proof.
  unfold str_in. rewrite existsb_exists. split.
  - intros [y [Hy Heq]]. apply String.eqb_eq in Heq. now subst.
  - intros H. exists x. split; [assumption | apply String.eqb_refl].
Qed.

Lemma str_in_false (x : string) (xs : list string) :
  str_in x xs = false <-> ~ In x xs.
Proof.
  rewrite <- str_in_In. destruct (str_in x xs); split; congruence.
Qed.

Lemma resolver_refl (cs : bool) (a : string) : resolver cs a a = true.
Proof. destruct cs; apply String.eqb_refl. Qed.

Lemma resolver_sym (cs : bool) (a b : string) :
  resolver cs a b = resolver cs b a.
Proof. destruct cs; apply String.eqb_sym. Qed.

Lemma resolver_trans (cs : bool) (a b c : string) :
  resolver cs a b = true -> resolver cs b c = true -> resolver cs a c = true.
Proof.
  destruct cs; simpl; rewrite !String.eqb_eq; congruence.
Qed.


Lemma agree_spec (cs : bool) (a b : string) :
  agree cs a b = true -> resolver cs a b = true -> lower a = lower b.
Proof.
  unfold agree. intros H R. rewrite R in H. cbn in H.
  now apply String.eqb_eq.
Qed.

Lemma names_agree_spec (cs : bool) (names others : list string) :
  names_agree cs names others = true ->
  forall a b, In a names -> In b others ->
              resolver cs a b = true -> lower a = lower b.
Proof.
  unfold names_agree. rewrite forallb_forall. intros H a b Ha Hb.
  specialize (H a Ha). rewrite forallb_forall in H.
  apply agree_spec. now apply H.
Qed.

Lemma names_agree_app (cs : bool) (n1 n2 others : list string) :
  names_agree cs (n1 ++ n2) others
  = names_agree cs n1 others && names_agree cs n2 others.
Proof. apply forallb_app. Qed.

(** In a case-sensitive session a match is an equality, so the names agree
    whatever [lower] is. *)
Lemma names_agree_case_sensitive (names others : list string) :
  names_agree true names others = true.
Proof.
  unfold names_agree. apply forallb_forall. intros a _.
  apply forallb_forall. intros b _. unfold agree. cbn.
  destruct (a =? b) eqn:E; [|reflexivity].
  apply String.eqb_eq in E. subst. cbn. apply String.eqb_refl.
Qed.

(** *** The monad on a table: the loops are the folds *)

Lemma for_each_rename (d : DataFrame) (mapping : list (string * string)) :
  for_each rename_step (Some d) mapping
  = (rename_log d mapping, Return (Some (renamed d mapping))).
Proof.
  revert d. induction mapping as [|[old new] rest IH]; intros d.
  - reflexivity.
  - cbn [for_each rename_log renamed fold_left].
    unfold rename_step, rename_pure at 1 3. cbn [fst snd].
    cbn [attr_columns bind ret app].
    destruct (str_in old (columns d)) eqn:E; cbn;
      rewrite IH; reflexivity.
Qed.

Lemma for_each_require (cur : list string) (d : DataFrame)
      (required : list string) :
  for_each (require_step cur) (Some d) required
  = (require_log cur required,
     Return (Some (fold_left (require_pure cur) required d))).
Proof.
  revert d. induction required as [|col rest IH]; intros d.
  - reflexivity.
  - cbn [for_each require_log fold_left map].
    unfold require_step, require_pure at 2.
    destruct (negb (str_in (lower col) cur)) eqn:E; cbn;
      rewrite IH; reflexivity.
Qed.

Lemma process_dataframe_Some (d : DataFrame)
      (mapping : list (string * string)) (required : list string) :
  process_dataframe (Some d) mapping required
  = (EvPrint MsgProcessStart
       :: rename_log d mapping
       ++ require_log (map lower (columns (renamed d mapping))) required
       ++ process_report (harmonized d mapping required),
     Return (Some (harmonized d mapping required))).
Proof.
  unfold process_dataframe.
  cbn [print emit bind app].
  rewrite for_each_rename. cbn [bind attr_columns ret app].
  rewrite for_each_require. reflexivity.
Qed.

Lemma process_dataframe_outcome (d : DataFrame)
      (mapping : list (string * string)) (required : list string) :
  outcome (process_dataframe (Some d) mapping required)
  = Return (Some (harmonized d mapping required)).
Proof. rewrite process_dataframe_Some. reflexivity. Qed.

(** *** The renaming loop keeps every column in place *)

Lemma rename_to_name (c : Column) : rename_to (name c) c = c.
Proof. destruct c; reflexivity. Qed.

Lemma rename_pure_cols (d : DataFrame) (kv : string * string) :
  cols (rename_pure d kv)
  = map (fun c => rename_to
                    (if str_in (fst kv) (columns d)
                     then step_name (caseSensitive d) (fst kv) (snd kv)
                                    (name c)
                     else name c) c) (cols d).
Proof.
  unfold rename_pure. destruct (str_in (fst kv) (columns d)).
  - cbn. apply map_ext. intros c. unfold step_name.
    destruct (resolver _ _ _); [reflexivity | now rewrite rename_to_name].
  - rewrite <- (map_id (cols d)) at 1. apply map_ext.
    intros c. now rewrite rename_to_name.
Qed.

Lemma rename_pure_caseSensitive (d : DataFrame) (kv : string * string) :
  caseSensitive (rename_pure d kv) = caseSensitive d.
Proof. unfold rename_pure. now destruct (str_in _ _). Qed.

Lemma rename_pure_nrows (d : DataFrame) (kv : string * string) :
  nrows (rename_pure d kv) = nrows d.
Proof. unfold rename_pure. now destruct (str_in _ _). Qed.

Lemma renamed_caseSensitive (d : DataFrame) (m : list (string * string)) :
  caseSensitive (renamed d m) = caseSensitive d.
Proof.
  revert d. induction m as [|kv m IH]; intros d; [reflexivity|].
  cbn. unfold renamed in IH. now rewrite IH, rename_pure_caseSensitive.
Qed.

Lemma renamed_nrows (d : DataFrame) (m : list (string * string)) :
  nrows (renamed d m) = nrows d.
Proof.
  revert d. induction m as [|kv m IH]; intros d; [reflexivity|].
  cbn. unfold renamed in IH. now rewrite IH, rename_pure_nrows.
Qed.

Lemma renamed_cols (d : DataFrame) (m : list (string * string)) :
  cols (renamed d m)
  = map (fun c => rename_to (name_after d m (name c)) c) (cols d).
Proof.
  revert d. induction m as [|kv m IH]; intros d.
  - cbn. rewrite <- (map_id (cols d)) at 1. apply map_ext.
    intros c. now rewrite rename_to_name.
  - cbn [renamed fold_left name_after]. unfold renamed in IH.
    rewrite IH, rename_pure_cols, map_map. apply map_ext.
    intros c. reflexivity.
Qed.

Lemma renamed_columns (d : DataFrame) (m : list (string * string)) :
  columns (renamed d m) = map (name_after d m) (columns d).
Proof.
  unfold columns. rewrite renamed_cols, !map_map. reflexivity.
Qed.

(** A name after the loop is the original one or one of the new names. *)
Lemma name_after_range (d : DataFrame) (m : list (string * string))
      (n : string) :
  name_after d m n = n \/ In (name_after d m n) (map snd m).
Proof.
  revert d n. induction m as [|kv m IH]; intros d n; [now left|].
  cbn [name_after map].
  destruct (str_in (fst kv) (columns d)).
  - unfold step_name. destruct (resolver _ n (fst kv)).
    + destruct (IH (rename_pure d kv) (snd kv)) as [H|H].
      * right. left. now rewrite H.
      * right. now right.
    + destruct (IH (rename_pure d kv) n) as [H|H]; [now left | right; now right].
  - destruct (IH (rename_pure d kv) n) as [H|H]; [now left | right; now right].
Qed.

(** The names after the loop are names of the input or new names. *)
Lemma renamed_names_from (d : DataFrame) (m : list (string * string))
      (n : string) :
  In n (columns (renamed d m)) -> In n (columns d ++ map snd m).
Proof.
  rewrite renamed_columns. intros H. apply in_map_iff in H.
  destruct H as [n0 [<- Hn0]]. apply in_or_app.
  destruct (name_after_range d m n0) as [-> | H]; [now left | now right].
Qed.

(** *** One [withColumn], on any table *)

Lemma map_fixed {A} (f : A -> A) (l : list A) :
  (forall x, In x l -> f x = x) -> map f l = l.
Proof.
  intros H. rewrite <- (map_id l) at 2. now apply map_ext_in.
Qed.

Lemma existsb_none {A} (f : A -> bool) (l : list A) :
  (forall x, In x l -> f x = false) -> existsb f l = false.
Proof.
  intros H. destruct (existsb f l) eqn:E; [|reflexivity].
  apply existsb_exists in E. destruct E as [x [Hx Hf]].
  rewrite (H x Hx) in Hf. discriminate.
Qed.

Lemma existsb_over_map {A B} (f : B -> bool) (g : A -> B) (l : list A) :
  existsb f (map g l) = existsb (fun x => f (g x)) l.
Proof.
  induction l as [|x l IH]; [reflexivity|]. cbn. now rewrite IH.
Qed.

Lemma existsb_resolver_false (cs : bool) (x : string) (l : list string) :
  existsb (resolver cs x) l = false ->
  forall y, In y l -> resolver cs x y = false.
Proof.
  intros H y Hy. destruct (resolver cs x y) eqn:R; [|reflexivity].
  assert (existsb (resolver cs x) l = true)
    by (apply existsb_exists; now exists y).
  congruence.
Qed.

(** The names of the table after [withColumn]. *)
Lemma withColumn_columns (d : DataFrame) (col : string) (e : ColumnExpr) :
  columns (withColumn d col e)
  = names_step (caseSensitive d) (columns d) col.
Proof.
  unfold withColumn, names_step, columns. cbn [cols].
  rewrite existsb_over_map. destruct (existsb _ (cols d)).
  - rewrite !map_map. apply map_ext. intros c.
    destruct (resolver (caseSensitive d) (name c) col); [|reflexivity].
    now destruct e.
  - rewrite map_app. cbn. now destruct e.
Qed.

Lemma withColumn_well_formed (d : DataFrame) (col : string)
      (e : ColumnExpr) :
  well_formed d -> well_formed (withColumn d col e).
Proof.
  unfold well_formed, withColumn. cbn [cols nrows]. intros H.
  assert (Hnew : length (cells (eval_column (nrows d) col e)) = nrows d)
    by (destruct e; cbn; apply repeat_length).
  destruct (existsb _ (cols d)).
  - apply Forall_forall. intros c Hin. apply in_map_iff in Hin.
    destruct Hin as [c0 [<- Hin0]].
    destruct (resolver _ _ _); [exact Hnew|].
    rewrite Forall_forall in H. now apply H.
  - apply Forall_app. split; [exact H|]. now constructor.
Qed.

(** With no match among [front], [withColumn] works behind it. *)
Lemma withColumn_cols_behind (d : DataFrame) (front extra : list Column)
      (col : string) :
  cols d = front ++ extra ->
  (forall c, In c front -> resolver (caseSensitive d) (name c) col = false) ->
  cols (withColumn d col (LitNullCast StringType))
  = front ++ extra_step (caseSensitive d) (nrows d) extra col.
Proof.
  intros Hc Hfront. unfold withColumn, extra_step. cbn [cols eval_column].
  rewrite Hc, existsb_app, (existsb_none _ front Hfront). cbn [orb].
  fold (null_string_column (nrows d) col).
  destruct (existsb _ extra).
  - rewrite map_app. f_equal. apply map_fixed.
    intros c Hin. now rewrite (Hfront c Hin).
  - now rewrite <- app_assoc.
Qed.

(** *** The required-columns loop *)

Lemma require_pure_caseSensitive (cur : list string) (d : DataFrame)
      (col : string) :
  caseSensitive (require_pure cur d col) = caseSensitive d.
Proof. unfold require_pure. now destruct (negb _). Qed.

Lemma require_pure_nrows (cur : list string) (d : DataFrame) (col : string) :
  nrows (require_pure cur d col) = nrows d.
Proof. unfold require_pure. now destruct (negb _). Qed.

Lemma require_fold_nrows (cur required : list string) (d : DataFrame) :
  nrows (fold_left (require_pure cur) required d) = nrows d.
Proof.
  revert d. induction required as [|col rest IH]; intros d; [reflexivity|].
  cbn. now rewrite IH, require_pure_nrows.
Qed.

Lemma require_fold_caseSensitive (cur required : list string)
      (d : DataFrame) :
  caseSensitive (fold_left (require_pure cur) required d) = caseSensitive d.
Proof.
  revert d. induction required as [|col rest IH]; intros d; [reflexivity|].
  cbn. now rewrite IH, require_pure_caseSensitive.
Qed.

Lemma require_fold_well_formed (cur required : list string)
      (d : DataFrame) :
  well_formed d -> well_formed (fold_left (require_pure cur) required d).
Proof.
  revert d. induction required as [|col rest IH]; intros d H; [exact H|].
  cbn. apply IH. unfold require_pure. destruct (negb _); [|exact H].
  now apply withColumn_well_formed.
Qed.

Lemma harmonized_nrows (d : DataFrame) (m : list (string * string))
      (required : list string) :
  nrows (harmonized d m required) = nrows d.
Proof.
  unfold harmonized. cbv zeta. now rewrite require_fold_nrows, renamed_nrows.
Qed.

Lemma harmonized_caseSensitive (d : DataFrame) (m : list (string * string))
      (required : list string) :
  caseSensitive (harmonized d m required) = caseSensitive d.
Proof.
  unfold harmonized. cbv zeta.
  now rewrite require_fold_caseSensitive, renamed_caseSensitive.
Qed.

Lemma renamed_well_formed (d : DataFrame) (m : list (string * string)) :
  well_formed d -> well_formed (renamed d m).
Proof.
  unfold well_formed. intros H. rewrite renamed_cols, renamed_nrows.
  apply Forall_forall. intros c Hin. apply in_map_iff in Hin.
  destruct Hin as [c0 [<- Hin0]]. cbn.
  rewrite Forall_forall in H. now apply H.
Qed.

(** The harmonizer returns a table with one cell per row in every column
    when it is given one. *)
Lemma harmonized_well_formed (d : DataFrame) (m : list (string * string))
      (required : list string) :
  well_formed d -> well_formed (harmonized d m required).
Proof.
  intros H. unfold harmonized. cbv zeta.
  apply require_fold_well_formed. now apply renamed_well_formed.
Qed.

(** The loop of lines 99-104, started on [front] with the list of [front]'s
    lowercased names, as long as a required name that matches a column of
    [front] for the resolver has its lowercase form in that list: [front]
    stays, the added columns evolve by [extra_step]. *)
Lemma require_fold_cols (front : list Column) (required : list string)
      (d : DataFrame) (extra : list Column) :
  let cur := map lower (map name front) in
  (forall col c, In col required -> In c front ->
                 resolver (caseSensitive d) (name c) col = true ->
                 In (lower col) cur) ->
  cols d = front ++ extra ->
  cols (fold_left (require_pure cur) required d)
  = front ++ fold_left (extra_step (caseSensitive d) (nrows d))
                       (to_add cur required) extra.
Proof.
  intros cur Hsafe Hc. revert d extra Hsafe Hc.
  induction required as [|col rest IH]; intros d extra Hsafe Hc.
  - exact Hc.
  - cbn [fold_left to_add filter]. unfold require_pure at 2.
    destruct (negb (str_in (lower col) cur)) eqn:E.
    + cbn [fold_left].
      assert (Hfront : forall c, In c front ->
                resolver (caseSensitive d) (name c) col = false).
      { intros c Hin. destruct (resolver _ _ _) eqn:R; [|reflexivity].
        apply negb_true_iff in E. apply str_in_false in E.
        exfalso. apply E. apply (Hsafe col c); [now left | assumption
                                                | assumption]. }
      rewrite (IH (withColumn d col (LitNullCast StringType))
                  (extra_step (caseSensitive d) (nrows d) extra col)).
      * reflexivity.
      * intros col' c Hcol' Hin. apply Hsafe; [now right | assumption].
      * now apply withColumn_cols_behind.
    + apply IH; [|assumption].
      intros col' c Hcol' Hin. apply Hsafe; [now right | assumption].
Qed.

(** The hypothesis of [require_fold_cols] from the agreement, on the names
    involved, of the resolver with [lower]. *)
Lemma front_is_safe (d : DataFrame) (m : list (string * string))
      (required : list string) :
  names_agree (caseSensitive d) (columns d ++ map snd m) required = true ->
  forall col c, In col required -> In c (cols (renamed d m)) ->
                resolver (caseSensitive (renamed d m)) (name c) col = true ->
                In (lower col) (map lower (map name (cols (renamed d m)))).
Proof.
  intros H col c Hcol Hc R. rewrite renamed_caseSensitive in R.
  assert (Hn : In (name c) (columns (renamed d m))) by now apply in_map.
  rewrite <- (names_agree_spec _ _ _ H (name c) col
                               (renamed_names_from d m _ Hn) Hcol R).
  apply in_map. exact Hn.
Qed.

Lemma harmonized_cols (d : DataFrame) (m : list (string * string))
      (required : list string) :
  names_agree (caseSensitive d) (columns d ++ map snd m) required = true ->
  cols (harmonized d m required)
  = cols (renamed d m)
    ++ fold_left (extra_step (caseSensitive d) (nrows d))
                 (to_add (map lower (columns (renamed d m))) required) [].
Proof.
  intros H. unfold harmonized. cbv zeta. unfold columns at 1 2.
  rewrite (require_fold_cols (cols (renamed d m)) required (renamed d m) []).
  - now rewrite renamed_caseSensitive, renamed_nrows.
  - now apply front_is_safe.
  - now rewrite app_nil_r.
Qed.
(** *** The columns the required-columns loop adds *)

Lemma extra_step_names_grow (cs : bool) (n : nat) (extra : list Column)
      (col l : string) :
  (forall c, In c extra -> resolver cs (name c) col = true ->
             lower (name c) = lower col) ->
  In l (map lower (map name extra)) ->
  In l (map lower (map name (extra_step cs n extra col))).
Proof.
  intros Hag H. unfold extra_step. destruct (existsb _ extra).
  - rewrite map_map in H. apply in_map_iff in H. destruct H as [c [Hl Hin]].
    rewrite !map_map. apply in_map_iff.
    exists c. split; [|assumption].
    destruct (resolver cs (name c) col) eqn:R; [|assumption].
    cbn. rewrite <- Hl. symmetry. now apply Hag.
  - rewrite !map_app. apply in_or_app. now left.
Qed.

Lemma extra_step_has_name (cs : bool) (n : nat) (extra : list Column)
      (col : string) :
  In col (map name (extra_step cs n extra col)).
Proof.
  unfold extra_step. destruct (existsb _ extra) eqn:E.
  - apply existsb_exists in E. destruct E as [c [Hin R]].
    apply in_map_iff.
    exists ((fun c => if resolver cs (name c) col
                      then null_string_column n col else c) c).
    split; [now rewrite R|].
    apply in_map_iff. exists c. now split.
  - rewrite map_app. apply in_or_app. right. now left.
Qed.

Lemma extra_step_names_incl (cs : bool) (n : nat) (extra : list Column)
      (col : string) (S : list string) :
  incl (map name extra) S -> In col S ->
  incl (map name (extra_step cs n extra col)) S.
Proof.
  intros Hi Hcol x Hx. unfold extra_step in Hx. destruct (existsb _ extra).
  - rewrite map_map in Hx. apply in_map_iff in Hx.
    destruct Hx as [c [<- Hc]].
    destruct (resolver cs (name c) col); [exact Hcol|].
    apply Hi. now apply in_map.
  - rewrite map_app in Hx. apply in_app_or in Hx.
    destruct Hx as [Hx | [<- | []]]; [now apply Hi | exact Hcol].
Qed.

Lemma extra_fold_names_grow (cs : bool) (n : nat) (S names : list string)
      (extra : list Column) (l : string) :
  (forall a b, In a S -> In b S -> resolver cs a b = true ->
               lower a = lower b) ->
  incl names S -> incl (map name extra) S ->
  In l (map lower (map name extra)) ->
  In l (map lower (map name (fold_left (extra_step cs n) names extra))).
Proof.
  intros Hag. revert extra.
  induction names as [|col rest IH]; intros extra Hn He H; [exact H|].
  cbn. apply IH.
  - intros x Hx. apply Hn. now right.
  - apply extra_step_names_incl; [assumption | apply Hn; now left].
  - apply extra_step_names_grow; [|assumption].
    intros c Hc. apply Hag; [|apply Hn; now left].
    apply He. now apply in_map.
Qed.

Lemma extra_fold_has_names (cs : bool) (n : nat) (S names : list string)
      (extra : list Column) (col : string) :
  (forall a b, In a S -> In b S -> resolver cs a b = true ->
               lower a = lower b) ->
  incl names S -> incl (map name extra) S ->
  In col names ->
  In (lower col)
     (map lower (map name (fold_left (extra_step cs n) names extra))).
Proof.
  intros Hag. revert extra.
  induction names as [|c rest IH]; intros extra Hn He H; [destruct H|].
  cbn. destruct H as [-> | H].
  + apply (extra_fold_names_grow cs n S); try assumption.
    * intros x Hx. apply Hn. now right.
    * apply extra_step_names_incl; [assumption | apply Hn; now left].
    * apply in_map. apply extra_step_has_name.
  + apply IH; try assumption.
    * intros x Hx. apply Hn. now right.
    * apply extra_step_names_incl; [assumption | apply Hn; now left].
Qed.

(** Each added column is all null, of string type, and carries a required
    name in the letter case of the list. *)
Lemma extra_fold_shape (cs : bool) (n : nat) (names : list string)
      (extra : list Column) (c : Column) :
  In c (fold_left (extra_step cs n) names extra) ->
  In c extra \/ exists col, In col names /\ c = null_string_column n col.
Proof.
  revert extra. induction names as [|col rest IH]; intros extra H.
  - now left.
  - cbn in H. apply IH in H. destruct H as [H | [col' [Hin Hc]]].
    + unfold extra_step in H. destruct (existsb _ extra).
      * apply in_map_iff in H. destruct H as [c0 [Hc0 Hin0]].
        destruct (resolver cs (name c0) col).
        -- right. exists col. split; [now left | now symmetry].
        -- left. now subst.
      * apply in_app_or in H. destruct H as [H | [H | []]].
        -- now left.
        -- right. exists col. split; [now left | now symmetry].
    + right. exists col'. split; [now right | assumption].
Qed.

Lemma to_add_In (cur required : list string) (col : string) :
  In col (to_add cur required) <->
  In col required /\ ~ In (lower col) cur.
Proof.
  unfold to_add. rewrite filter_In, negb_true_iff, str_in_false.
  reflexivity.
Qed.

Lemma columns_app_lower (front extra : list Column) (d : DataFrame) :
  cols d = front ++ extra ->
  map lower (columns d)
  = map lower (map name front) ++ map lower (map name extra).
Proof. intros H. unfold columns. now rewrite H, !map_app. Qed.

Lemma extra_step_length (cs : bool) (n : nat) (extra : list Column)
      (col : string) :
  length (extra_step cs n extra col) <= S (length extra).
Proof.
  unfold extra_step. destruct (existsb _ extra).
  - rewrite length_map. lia.
  - rewrite length_app. cbn. lia.
Qed.

Lemma extra_fold_length (cs : bool) (n : nat) (names : list string)
      (extra : list Column) :
  length (fold_left (extra_step cs n) names extra)
  <= length extra + length names.
Proof.
  revert extra. induction names as [|col rest IH]; intros extra; cbn.
  - lia.
  - specialize (IH (extra_step cs n extra col)).
    pose proof (extra_step_length cs n extra col). lia.
Qed.

Lemma to_add_length (cur required : list string) :
  length (to_add cur required) <= length required.
Proof.
  unfold to_add. induction required as [|r rest IH]; cbn; [lia|].
  destruct (negb _); cbn; lia.
Qed.

(** Under the agreement of the resolver with [lower] on the names involved,
    every required name has its lowercase form among the lowercased names
    of the harmonized table. *)
Lemma harmonized_has_required (d : DataFrame) (m : list (string * string))
      (required : list string) :
  names_agree (caseSensitive d) ((columns d ++ map snd m) ++ required)
              required = true ->
  Forall (fun r => In (lower r)
                      (map lower (columns (harmonized d m required))))
         required.
Proof.
  rewrite names_agree_app. intros H. apply andb_true_iff in H.
  destruct H as [Hfront Hreq].
  apply Forall_forall. intros r Hr.
  rewrite (columns_app_lower _ _ _ (harmonized_cols d m required Hfront)).
  apply in_or_app.
  destruct (str_in (lower r) (map lower (columns (renamed d m)))) eqn:E.
  - left. now apply str_in_In in E.
  - right. apply (extra_fold_has_names _ _ required).
    + exact (names_agree_spec _ _ _ Hreq).
    + intros x Hx. now apply to_add_In in Hx.
    + intros x [].
    + apply to_add_In. split; [assumption | now apply str_in_false].
Qed.

(** *** Claims on the harmonizer *)

Lemma harmonized_snoc (d : DataFrame) (mapping : list (string * string))
      (pre : list string) (col : string) :
  harmonized d mapping (pre ++ [col])
  = require_pure (map lower (columns (renamed d mapping)))
                 (harmonized d mapping pre) col.
Proof. unfold harmonized. cbv zeta. now rewrite fold_left_app. Qed.

Lemma require_log_added (cur : list string) (col : string) :
  ~ In (lower col) cur ->
  require_log cur [col] = [EvPrint (MsgAddedNull col)].
Proof.
  intros H. apply str_in_false in H. cbn. now rewrite H.
Qed.

Lemma require_log_app (cur a b : list string) :
  require_log cur (a ++ b) = require_log cur a ++ require_log cur b.
Proof. apply map_app. Qed.

(** C10. The lowercased list of column names is taken once, after the
    renaming loop, and each required entry is tested against that list
    alone.  So when two entries of the required-columns list share their
    lowercase form and that form is not among the columns at that point,
    the adding branch runs (and prints) for the first and again for the
    second. *)
Theorem stale_column_list_adds_twice (d : DataFrame)
        (mapping : list (string * string))
        (pre mid post : list string) (c1 c2 : string) :
  lower c1 = lower c2 ->
  ~ In (lower c1) (map lower (columns (renamed d mapping))) ->
  let stale := map lower (columns (renamed d mapping)) in
  let required := pre ++ c1 :: mid ++ c2 :: post in
  trace (process_dataframe (Some d) mapping required)
  = EvPrint MsgProcessStart
      :: rename_log d mapping
      ++ (require_log stale pre
          ++ EvPrint (MsgAddedNull c1)
          :: require_log stale mid
          ++ EvPrint (MsgAddedNull c2)
          :: require_log stale post)
      ++ process_report (harmonized d mapping required).
Proof.
  intros Hlow Habs stale required.
  rewrite process_dataframe_Some. unfold trace. cbn [fst].
  do 3 f_equal. subst required. fold stale.
  change (c1 :: mid ++ c2 :: post) with ([c1] ++ mid ++ [c2] ++ post).
  rewrite !require_log_app.
  rewrite (require_log_added stale c1 Habs).
  rewrite (require_log_added stale c2) by (now rewrite <- Hlow).
  reflexivity.
Qed.


(** C8, as amended.  Take a required name whose lowercase form is not in
    the list of lowercased column names taken after the renames (the test
    of line 100) and which no column of the table, as the earlier entries
    of the list left it, matches for the session's resolver.  Then its turn
    in the loop prints that the column was added and yields that table
    followed by exactly one new column: all null, of string type, named as
    written in the list.  The row count and the columns already there are
    unchanged. *)
Theorem appended_column_frame (d r d1 : DataFrame)
        (mapping : list (string * string)) (pre : list string)
        (col : string) :
  outcome (process_dataframe (Some d) mapping []) = Return (Some r) ->
  outcome (process_dataframe (Some d) mapping pre) = Return (Some d1) ->
  ~ In (lower col) (map lower (columns r)) ->
  existsb (fun c => resolver (caseSensitive d1) (name c) col) (cols d1)
  = false ->
  exists d2,
    outcome (process_dataframe (Some d) mapping (pre ++ [col]))
    = Return (Some d2)
    /\ In (EvPrint (MsgAddedNull col))
          (trace (process_dataframe (Some d) mapping (pre ++ [col])))
    /\ cols d2 = cols d1 ++ [{| name := col; dtype := StringType;
                                cells := repeat None (nrows d1) |}]
    /\ nrows d2 = nrows d1.
Proof.
  rewrite !process_dataframe_outcome. intros Hr Hd1 Hmiss Hnone.
  injection Hr as <-. injection Hd1 as <-.
  change (harmonized d mapping []) with (renamed d mapping) in Hmiss.
  apply str_in_false in Hmiss.
  exists (harmonized d mapping (pre ++ [col])).
  split; [reflexivity|]. split.
  - rewrite process_dataframe_Some. unfold trace. cbn [fst].
    right. apply in_or_app. right. apply in_or_app. left.
    unfold require_log. rewrite map_app. apply in_or_app. right.
    cbn. rewrite Hmiss. now left.
  - rewrite harmonized_snoc. unfold require_pure. rewrite Hmiss. cbn [negb].
    split; [|reflexivity].
    unfold withColumn. cbn [cols eval_column]. now rewrite Hnone.
Qed.
(** *** Renames that take effect end to end *)

Lemma targets_fresh_spec (cs : bool) (m : list (string * string)) :
  targets_fresh cs m = true ->
  forall old new k, In (old, new) m -> In k (map fst m) ->
                    new <> k /\ (k <> old -> resolver cs new k = false).
Proof.
  unfold targets_fresh. rewrite forallb_forall. intros H old new k Hin Hk.
  specialize (H (old, new) Hin). rewrite forallb_forall in H.
  specialize (H k Hk). cbn [fst snd] in H.
  apply andb_true_iff in H. destruct H as [Hne Hres].
  apply negb_true_iff, String.eqb_neq in Hne. split; [exact Hne|].
  intros Hko. apply orb_true_iff in Hres. destruct Hres as [Hres | Hres].
  - apply String.eqb_eq in Hres. contradiction.
  - now apply negb_true_iff in Hres.
Qed.

Lemma targets_not_keys (cs : bool) (m : list (string * string)) :
  targets_fresh cs m = true ->
  forall k, In k (map fst m) -> ~ In k (map snd m).
Proof.
  intros H k Hk Hv. apply in_map_iff in Hv. destruct Hv as [[o n] [Hn Hin]].
  cbn in Hn. subst n.
  destruct (targets_fresh_spec cs m H o k k Hin Hk) as [Hne _]. now apply Hne.
Qed.

Lemma keys_not_required_spec (m : list (string * string))
      (required : list string) :
  keys_not_required m required = true ->
  forall k, In k (map fst m) -> ~ In k required.
Proof.
  unfold keys_not_required. rewrite forallb_forall. intros H k Hk.
  specialize (H k Hk). apply negb_true_iff in H. now apply str_in_false.
Qed.

Lemma has_duplicate_false_eq (cs : bool) (l : list string) (a b : string) :
  has_duplicate cs l = false ->
  In a l -> In b l -> resolver cs a b = true -> a = b.
Proof.
  induction l as [|x l IH]; intros Hd Ha Hb R; [destruct Ha|].
  cbn in Hd. apply orb_false_iff in Hd. destruct Hd as [Hx Hl].
  assert (Hno : forall y, In y l -> resolver cs x y = false).
  { intros y Hy. destruct (resolver cs x y) eqn:E; [|reflexivity].
    assert (existsb (resolver cs x) l = true)
      by (apply existsb_exists; now exists y).
    congruence. }
  destruct Ha as [-> | Ha], Hb as [-> | Hb].
  - reflexivity.
  - rewrite (Hno b Hb) in R. discriminate.
  - rewrite resolver_sym, (Hno a Ha) in R. discriminate.
  - now apply IH.
Qed.

Lemma name_after_stable (m : list (string * string)) (d : DataFrame)
      (n : string) :
  (forall k, In k (map fst m) -> resolver (caseSensitive d) n k = false) ->
  name_after d m n = n.
Proof.
  revert d. induction m as [|kv m IH]; intros d H; [reflexivity|].
  cbn [name_after]. unfold step_name.
  rewrite (H (fst kv)) by now left.
  destruct (str_in _ _); apply IH; intros k Hk;
    rewrite rename_pure_caseSensitive; apply H; now right.
Qed.

Lemma name_after_app (m1 m2 : list (string * string)) (d : DataFrame)
      (n : string) :
  name_after d (m1 ++ m2) n
  = name_after (renamed d m1) m2 (name_after d m1 n).
Proof.
  revert d n. induction m1 as [|kv m1 IH]; intros d n; [reflexivity|].
  cbn [app name_after renamed fold_left]. apply IH.
Qed.

(** A key found among the columns while the loop runs was a column of the
    input, as long as no new name is a key. *)
Lemma key_in_columns_original (d : DataFrame) (m1 : list (string * string))
      (k : string) :
  ~ In k (map snd m1) ->
  In k (columns (renamed d m1)) -> In k (columns d).
Proof.
  intros Hk Hin. rewrite renamed_columns in Hin.
  apply in_map_iff in Hin. destruct Hin as [n0 [Hn0 Hin]].
  destruct (name_after_range d m1 n0) as [H | H].
  - now rewrite <- Hn0, H.
  - rewrite Hn0 in H. contradiction.
Qed.

Lemma name_after_prefix_keeps (d : DataFrame) (old : string)
      (m1 : list (string * string)) :
  distinct_names d ->
  In old (columns d) ->
  (forall k, In k (map fst m1) -> k <> old) ->
  (forall k, In k (map fst m1) -> ~ In k (map snd m1)) ->
  name_after d m1 old = old.
Proof.
  intros Hd Hold. induction m1 as [|[k v] m1 IH] using rev_ind;
    intros Hkeys Hfresh; [reflexivity|].
  rewrite name_after_app, IH.
  - cbn [name_after fst snd].
    destruct (str_in k (columns (renamed d m1))) eqn:E; [|reflexivity].
    apply str_in_In in E. apply key_in_columns_original in E.
    + unfold step_name. rewrite renamed_caseSensitive.
      destruct (resolver (caseSensitive d) old k) eqn:R; [|reflexivity].
      exfalso. apply (Hkeys k).
      * rewrite map_app. apply in_or_app. right. now left.
      * symmetry. exact (has_duplicate_false_eq _ _ _ _ Hd Hold E R).
    + intros Hv. apply (Hfresh k).
      * rewrite map_app. apply in_or_app. right. now left.
      * rewrite map_app. apply in_or_app. now left.
  - intros k' Hk'. apply Hkeys. rewrite map_app. apply in_or_app. now left.
  - intros k' Hk' Hv. apply (Hfresh k').
    + rewrite map_app. apply in_or_app. now left.
    + rewrite map_app. apply in_or_app. now left.
Qed.

(** Under the hypotheses of the end-to-end statement, a column named by a
    key leaves the renaming loop under the key's new name. *)
Lemma name_after_key (d : DataFrame) (m : list (string * string))
      (old new : string) :
  distinct_names d ->
  NoDup (map fst m) ->
  targets_fresh (caseSensitive d) m = true ->
  In (old, new) m ->
  In old (columns d) ->
  name_after d m old = new.
Proof.
  intros Hd Hnd Hfresh Hin Hold.
  pose proof (targets_fresh_spec _ _ Hfresh) as F.
  pose proof (targets_not_keys _ _ Hfresh) as G.
  destruct (in_split _ _ Hin) as [m1 [m2 E]]. subst m.
  rewrite map_app in Hnd. cbn [map fst] in Hnd.
  pose proof (NoDup_remove_2 _ _ _ Hnd) as Hnot.
  assert (Hpre : name_after d m1 old = old).
  { apply name_after_prefix_keeps; [assumption | assumption | |].
    - intros k Hk ->. apply Hnot. apply in_or_app. now left.
    - intros k Hk Hv. apply (G k);
        rewrite map_app; apply in_or_app; now left. }
  rewrite name_after_app, Hpre. cbn [name_after fst snd].
  assert (E : str_in old (columns (renamed d m1)) = true).
  { apply str_in_In. rewrite renamed_columns. apply in_map_iff.
    now exists old. }
  rewrite E. unfold step_name. rewrite resolver_refl.
  apply name_after_stable. intros k Hk.
  rewrite rename_pure_caseSensitive, renamed_caseSensitive.
  apply (F old new k Hin).
  - rewrite map_app. apply in_or_app. right. now right.
  - intros ->. apply Hnot. apply in_or_app. now right.
Qed.

Lemma process_dataframe_step (d0 : DataFrame) (o n : string)
      (rest : list (string * string)) (required : list string) :
  outcome (process_dataframe (Some d0) ((o, n) :: rest) required)
  = outcome (process_dataframe
               (Some (if str_in o (columns d0)
                      then withColumnRenamed d0 o n else d0))
               rest required).
Proof. now rewrite !process_dataframe_outcome. Qed.

(** C1, as amended.  Take a table whose column names are distinct for the
    session's resolver, a mapping with distinct keys in which no new name
    is a key or is matched by the key of another pair, and a
    required-columns list that names no key and in which no name is matched
    by a column name or a new name of a different lowercase form.  Then
    every key [old] that is a column of the input is absent from the
    result's columns, and every input column named [old] sits at the same
    position in the result under the name [new] with its type and values.
    In all cases the pairs are applied in mapping order, each on the table
    the earlier ones produced, and a key that is not a column at its turn
    leaves the table as it is. *)
Theorem renames_take_effect (d : DataFrame)
        (mapping : list (string * string)) (required : list string)
        (old new : string) :
  distinct_names d ->
  NoDup (map fst mapping) ->
  targets_fresh (caseSensitive d) mapping = true ->
  keys_not_required mapping required = true ->
  names_agree (caseSensitive d) (columns d ++ map snd mapping) required
  = true ->
  In (old, new) mapping ->
  In old (columns d) ->
  (exists d',
      outcome (process_dataframe (Some d) mapping required)
      = Return (Some d')
      /\ ~ In old (columns d')
      /\ In new (columns d')
      /\ forall i c,
          nth_error (cols d) i = Some c -> name c = old ->
          nth_error (cols d') i
          = Some {| name := new; dtype := dtype c; cells := cells c |})
  /\ (forall d0 o n rest,
         outcome (process_dataframe (Some d0) ((o, n) :: rest) required)
         = outcome (process_dataframe
                      (Some (if str_in o (columns d0)
                             then withColumnRenamed d0 o n else d0))
                      rest required)).
Proof.
  intros Hd Hnd Hfresh Hreq Hag Hin Hold.
  split; [|intros; apply process_dataframe_step].
  pose proof (name_after_key d mapping old new Hd Hnd Hfresh Hin Hold) as Hn.
  pose proof (targets_fresh_spec _ _ Hfresh) as F.
  pose proof (harmonized_cols d mapping required Hag) as Hcols.
  assert (Hkey : In old (map fst mapping))
    by (apply in_map_iff; now exists (old, new)).
  assert (Hpos : forall i c,
             nth_error (cols d) i = Some c -> name c = old ->
             nth_error (cols (harmonized d mapping required)) i
             = Some {| name := new; dtype := dtype c; cells := cells c |}).
  { intros i c Hi Hc. rewrite Hcols, renamed_cols.
    rewrite nth_error_app1.
    - rewrite (map_nth_error _ _ _ Hi), Hc, Hn. reflexivity.
    - rewrite length_map. apply nth_error_Some. congruence. }
  exists (harmonized d mapping required).
  split; [apply process_dataframe_outcome|]. split; [|split].
  - unfold columns at 1. rewrite Hcols, map_app.
    intros H. apply in_app_or in H. destruct H as [H | H].
    + fold (columns (renamed d mapping)) in H.
      rewrite renamed_columns in H. apply in_map_iff in H.
      destruct H as [n0 [Hn0 Hin0]].
      destruct (name_after_range d mapping n0) as [E | E].
      * assert (Hself : new = old) by congruence.
        destruct (F old new old Hin Hkey) as [Hne _]. now apply Hne.
      * rewrite Hn0 in E. exact (targets_not_keys _ _ Hfresh old Hkey E).
    + apply in_map_iff in H. destruct H as [c [Hc Hinc]].
      apply extra_fold_shape in Hinc. destruct Hinc as [[] | [col [Hcol ->]]].
      cbn in Hc. subst col. apply to_add_In in Hcol.
      exact (keys_not_required_spec _ _ Hreq old Hkey (proj1 Hcol)).
  - apply in_map_iff in Hold. destruct Hold as [c [Hc Hinc]].
    apply In_nth_error in Hinc. destruct Hinc as [i Hi].
    specialize (Hpos i c Hi Hc).
    apply nth_error_In in Hpos. unfold columns.
    apply in_map_iff. eexists. split; [|exact Hpos]. reflexivity.
  - exact Hpos.
Qed.

(** *** The unioner *)

Lemma union_dataframes_Some (d1 d2 : DataFrame) :
  union_dataframes (Some d1) (Some d2)
  = match unionByName d1 d2 true with
    | Return u =>
        (EvPrint MsgUnionStart :: EvUnionByName true :: union_report u,
         Return (Some u))
    | Raise e =>
        ([EvPrint MsgUnionStart; EvUnionByName true;
          EvPrint (MsgUnionError e); EvPrint MsgUnionCheckTypes],
         Return None)
    end.
Proof.
  unfold union_dataframes, call_unionByName, lift.
  destruct (unionByName d1 d2 true); reflexivity.
Qed.

Lemma align_left_compatible (cs : bool) (n2 : nat) (right : list Column)
      (c1 : Column) :
  match find_column cs (name c1) right with
  | Some c2 => match widerType (dtype c1) (dtype c2) with
               | Some _ => true
               | None => false
               end
  | None => true
  end = true ->
  align_left cs true n2 right c1 = Return (aligned cs n2 right c1).
Proof.
  unfold aligned, align_left.
  destruct (find_column cs (name c1) right) as [c2|]; [|reflexivity].
  destruct (widerType (dtype c1) (dtype c2)); [reflexivity | discriminate].
Qed.

Lemma align_all_compatible (cs : bool) (n2 : nat)
      (right left : list Column) :
  forallb (fun c1 =>
             match find_column cs (name c1) right with
             | Some c2 => match widerType (dtype c1) (dtype c2) with
                          | Some _ => true
                          | None => false
                          end
             | None => true
             end) left = true ->
  align_all cs true n2 right left = Return (map (aligned cs n2 right) left).
Proof.
  induction left as [|c1 rest IH]; intros H; [reflexivity|].
  cbn in H. apply andb_true_iff in H. destruct H as [H1 H2].
  cbn [align_all map]. rewrite (align_left_compatible _ _ _ _ H1), (IH H2).
  reflexivity.
Qed.

Lemma unionByName_compatible (d1 d2 : DataFrame) :
  duplicate_check (caseSensitive d1) (columns d1) = false ->
  duplicate_check (caseSensitive d1) (columns d2) = false ->
  types_compatible d1 d2 = true ->
  unionByName d1 d2 true
  = Return {| caseSensitive := caseSensitive d1;
              nrows := nrows d1 + nrows d2;
              cols := map (aligned (caseSensitive d1) (nrows d2) (cols d2))
                          (cols d1)
                      ++ map (pad_right_only (nrows d1))
                             (right_only (caseSensitive d1) (cols d1)
                                         (cols d2)) |}.
Proof.
  intros H1 H2 Ht. unfold unionByName. cbv zeta.
  rewrite H1, H2.
  rewrite (align_all_compatible _ _ _ _ Ht).
  now destruct (right_only _ _ _).
Qed.

Lemma aligned_name (cs : bool) (n2 : nat) (right : list Column)
      (c1 : Column) :
  name (aligned cs n2 right c1) = name c1.
Proof.
  unfold aligned, align_left.
  destruct (find_column cs (name c1) right) as [c2|]; [|reflexivity].
  now destruct (widerType (dtype c1) (dtype c2)).
Qed.

Lemma aligned_missing (cs : bool) (n2 : nat) (right : list Column)
      (c1 : Column) :
  find_column cs (name c1) right = None ->
  aligned cs n2 right c1
  = {| name := name c1; dtype := dtype c1;
       cells := cells c1 ++ repeat None n2 |}.
Proof. unfold aligned, align_left. now intros ->. Qed.

Lemma right_only_In (cs : bool) (left right : list Column) (c2 : Column) :
  In c2 (right_only cs left right) <->
  In c2 right
  /\ existsb (fun c1 => resolver cs (name c1) (name c2)) left = false.
Proof. unfold right_only. now rewrite filter_In, negb_true_iff. Qed.

Lemma align_all_inv (cs : bool) (n2 : nat) (right left lefts : list Column) :
  align_all cs true n2 right left = Return lefts ->
  lefts = map (aligned cs n2 right) left
  /\ forallb (fun c1 =>
                match find_column cs (name c1) right with
                | Some c2 => match widerType (dtype c1) (dtype c2) with
                             | Some _ => true
                             | None => false
                             end
                | None => true
                end) left = true.
Proof.
  revert lefts. induction left as [|c1 rest IH]; intros lefts H.
  - cbn in H. injection H as <-. now split.
  - cbn [align_all] in H.
    destruct (align_left cs true n2 right c1) as [c|e] eqn:E1;
      [|discriminate].
    destruct (align_all cs true n2 right rest) as [l|e] eqn:E2;
      [|discriminate].
    injection H as <-. destruct (IH l eq_refl) as [-> Hc].
    cbn [map forallb]. rewrite Hc, andb_true_r. unfold aligned.
    rewrite E1. split; [reflexivity|].
    unfold align_left in E1.
    destruct (find_column cs (name c1) right) as [c2|]; [|reflexivity].
    now destruct (widerType (dtype c1) (dtype c2)).
Qed.

Lemma unionByName_inv (d1 d2 u : DataFrame) :
  unionByName d1 d2 true = Return u ->
  duplicate_check (caseSensitive d1) (columns d1) = false
  /\ duplicate_check (caseSensitive d1) (columns d2) = false
  /\ types_compatible d1 d2 = true.
Proof.
  unfold unionByName, types_compatible. cbv zeta.
  destruct (duplicate_check (caseSensitive d1) (columns d1));
    [discriminate|].
  destruct (duplicate_check (caseSensitive d1) (columns d2));
    [discriminate|].
  destruct (align_all _ _ _ _ _) as [lefts|e] eqn:E; [|discriminate].
  intros _. apply align_all_inv in E. tauto.
Qed.

Lemma union_dataframes_outcome (d1 d2 : DataFrame) :
  outcome (union_dataframes (Some d1) (Some d2))
  = match unionByName d1 d2 true with
    | Return u => Return (Some u)
    | Raise _ => Return None
    end.
Proof.
  rewrite union_dataframes_Some. now destruct (unionByName d1 d2 true).
Qed.

Lemma find_column_In (cs : bool) (n : string) (l : list Column)
      (c : Column) :
  find_column cs n l = Some c -> In c l.
Proof. unfold find_column. intros H. now apply find_some in H. Qed.

Lemma aligned_length (cs : bool) (n1 n2 : nat) (right : list Column)
      (c1 : Column) :
  match find_column cs (name c1) right with
  | Some c2 => match widerType (dtype c1) (dtype c2) with
               | Some _ => true
               | None => false
               end
  | None => true
  end = true ->
  length (cells c1) = n1 ->
  Forall (fun c => length (cells c) = n2) right ->
  length (cells (aligned cs n2 right c1)) = n1 + n2.
Proof.
  intros Hc H1 H2. unfold aligned, align_left.
  destruct (find_column cs (name c1) right) as [c2|] eqn:F.
  - destruct (widerType (dtype c1) (dtype c2)); [|discriminate].
    cbn. rewrite length_app, !length_map, H1. f_equal.
    rewrite Forall_forall in H2. apply H2.
    exact (find_column_In _ _ _ _ F).
  - cbn. now rewrite length_app, repeat_length, H1.
Qed.

Lemma union_result_shape (d1 d2 u : DataFrame) :
  well_formed d1 -> well_formed d2 ->
  outcome (union_dataframes (Some d1) (Some d2)) = Return (Some u) ->
  well_formed u
  /\ count u = count d1 + count d2
  /\ exists added, columns u = columns d1 ++ added.
Proof.
  intros W1 W2. rewrite union_dataframes_outcome.
  destruct (unionByName d1 d2 true) as [u'|e] eqn:E; [|discriminate].
  intros H. injection H as <-.
  destruct (unionByName_inv d1 d2 u' E) as [H1 [H2 H3]].
  rewrite (unionByName_compatible d1 d2 H1 H2 H3) in E.
  injection E as <-. split; [|split].
  - unfold well_formed in *. cbn [cols nrows]. apply Forall_app. split.
    + apply Forall_forall. intros c Hin. apply in_map_iff in Hin.
      destruct Hin as [c1 [<- Hc1]].
      apply aligned_length; [| |exact W2].
      * unfold types_compatible in H3. rewrite forallb_forall in H3.
        now apply H3.
      * rewrite Forall_forall in W1. now apply W1.
    + apply Forall_forall. intros c Hin. apply in_map_iff in Hin.
      destruct Hin as [c2 [<- Hc2]]. apply right_only_In in Hc2.
      cbn. rewrite length_app, repeat_length. f_equal.
      rewrite Forall_forall in W2. now apply W2.
  - reflexivity.
  - eexists. unfold columns at 1. cbn [cols]. rewrite map_app. f_equal.
    rewrite map_map. apply map_ext. intros c. apply aligned_name.
Qed.

Lemma union_result_columns (d1 d2 u : DataFrame) :
  outcome (union_dataframes (Some d1) (Some d2)) = Return (Some u) ->
  count u = count d1 + count d2
  /\ exists added, columns u = columns d1 ++ added.
Proof.
  rewrite union_dataframes_outcome.
  destruct (unionByName d1 d2 true) as [u'|e] eqn:E; [|discriminate].
  intros H. injection H as <-.
  destruct (unionByName_inv d1 d2 u' E) as [H1 [H2 H3]].
  rewrite (unionByName_compatible d1 d2 H1 H2 H3) in E.
  injection E as <-. split; [reflexivity|].
  eexists. unfold columns at 1. cbn [cols]. rewrite map_app. f_equal.
  rewrite map_map. apply map_ext. intros c. apply aligned_name.
Qed.

(** The shape of a union that went through. *)
Lemma union_shape (d1 d2 u : DataFrame) :
  let cs := caseSensitive d1 in
  outcome (union_dataframes (Some d1) (Some d2)) = Return (Some u) ->
  count u = count d1 + count d2
  /\ columns u = columns d1 ++ map name (right_only cs (cols d1) (cols d2))
  /\ (forall n, In n (columns u) ->
                In n (columns d1) \/ In n (columns d2))
  /\ (forall n, In n (columns d1) \/ In n (columns d2) ->
                exists n', In n' (columns u) /\ resolver cs n' n = true)
  /\ (cs = true ->
      forall n, In n (columns u) <->
                In n (columns d1) \/ In n (columns d2))
  /\ (forall c1, In c1 (cols d1) ->
                 find_column cs (name c1) (cols d2) = None ->
                 In {| name := name c1; dtype := dtype c1;
                       cells := cells c1 ++ repeat None (nrows d2) |}
                    (cols u))
  /\ (forall c2, In c2 (cols d2) ->
                 existsb (fun c1 => resolver cs (name c1) (name c2))
                         (cols d1) = false ->
                 In {| name := name c2; dtype := dtype c2;
                       cells := repeat None (nrows d1) ++ cells c2 |}
                    (cols u)).
Proof.
  intros cs. rewrite union_dataframes_outcome.
  destruct (unionByName d1 d2 true) as [u0|e] eqn:E; [|discriminate].
  destruct (unionByName_inv d1 d2 u0 E) as [H1 [H2 Ht]].
  intros Hu. injection Hu as <-.
  rewrite (unionByName_compatible d1 d2 H1 H2 Ht) in E.
  injection E as <-. fold cs.
  set (lefts := map (aligned cs (nrows d2) (cols d2)) (cols d1)).
  set (extra := right_only cs (cols d1) (cols d2)).
  set (u := {| caseSensitive := cs; nrows := nrows d1 + nrows d2;
               cols := lefts ++ map (pad_right_only (nrows d1)) extra |}).
  split; [reflexivity|].
  assert (Hcols : columns u = columns d1 ++ map name extra).
  { unfold columns, u. cbn [cols]. rewrite map_app. f_equal.
    - unfold lefts. rewrite map_map. apply map_ext.
      intros c. apply aligned_name.
    - rewrite map_map. reflexivity. }
  assert (Hfrom : forall n, In n (columns u) ->
                            In n (columns d1) \/ In n (columns d2)).
  { intros n H. rewrite Hcols in H.
    apply in_app_or in H. destruct H as [H | H]; [now left|].
    right. apply in_map_iff in H. destruct H as [c2 [<- Hc2]].
    apply right_only_In in Hc2. apply in_map. tauto. }
  assert (Hcover : forall n, In n (columns d1) \/ In n (columns d2) ->
             exists n', In n' (columns u) /\ resolver cs n' n = true).
  { rewrite Hcols. intros n [H | H].
    - exists n. split; [apply in_or_app; now left | apply resolver_refl].
    - apply in_map_iff in H. destruct H as [c2 [<- Hc2]].
      destruct (existsb (fun c1 => resolver cs (name c1) (name c2))
                        (cols d1)) eqn:Ex.
      + apply existsb_exists in Ex. destruct Ex as [c1 [Hc1 R]].
        exists (name c1). split; [|exact R].
        apply in_or_app. left. now apply in_map.
      + exists (name c2). split; [|apply resolver_refl].
        apply in_or_app. right. apply in_map. apply right_only_In.
        now split. }
  split; [exact Hcols|]. split; [exact Hfrom|]. split; [exact Hcover|].
  split; [|split].
  - intros Hcs n. split; [apply Hfrom|].
    intros H. destruct (Hcover n H) as [n' [Hin R]].
    rewrite Hcs in R. cbn in R. apply String.eqb_eq in R. now subst.
  - intros c1 Hc1 Hnone. unfold u. cbn [cols]. apply in_or_app. left.
    rewrite <- (aligned_missing cs (nrows d2) (cols d2) c1 Hnone).
    unfold lefts. now apply in_map.
  - intros c2 Hc2 Hnone. unfold u. cbn [cols]. apply in_or_app. right.
    change {| name := name c2; dtype := dtype c2;
              cells := repeat None (nrows d1) ++ cells c2 |}
      with (pad_right_only (nrows d1) c2).
    apply in_map. apply right_only_In. now split.
Qed.

(** C3, as amended.  On two present tables the unioner never raises: it
    returns a table or [None].  Take two tables in each of which no two
    columns match for the session's resolver.  The unioner returns [None]
    whenever the engine refuses their union: a name repeated within one
    input for the engine's duplicate check, or a column of the first input
    matched in the second with no common type.  Whenever it returns a
    table, that table has as many rows as both inputs together, and its
    columns are those of the first input followed by those of the second
    that match none of the first.  Its names all come from the inputs, and
    every input name is matched by one of them; in a case-sensitive session
    that makes its name set the union of the two name sets.  A column the
    second input lacks holds the first input's cells followed by one null
    per row of the second, and a column the first input lacks holds one
    null per row of the first followed by the second input's cells. *)
Theorem union_of_compatible_tables (d1 d2 : DataFrame) :
  let cs := caseSensitive d1 in
  (exists v, outcome (union_dataframes (Some d1) (Some d2)) = Return v)
  /\ (has_duplicate cs (columns d1) = false ->
      has_duplicate cs (columns d2) = false ->
      (duplicate_check cs (columns d1) = true
       \/ duplicate_check cs (columns d2) = true
       \/ types_compatible d1 d2 = false ->
       outcome (union_dataframes (Some d1) (Some d2)) = Return None)
      /\ forall u,
          outcome (union_dataframes (Some d1) (Some d2)) = Return (Some u) ->
          count u = count d1 + count d2
          /\ columns u
             = columns d1 ++ map name (right_only cs (cols d1) (cols d2))
          /\ (forall n, In n (columns u) ->
                        In n (columns d1) \/ In n (columns d2))
          /\ (forall n, In n (columns d1) \/ In n (columns d2) ->
                        exists n',
                          In n' (columns u) /\ resolver cs n' n = true)
          /\ (cs = true ->
              forall n, In n (columns u) <->
                        In n (columns d1) \/ In n (columns d2))
          /\ (forall c1, In c1 (cols d1) ->
                         find_column cs (name c1) (cols d2) = None ->
                         In {| name := name c1; dtype := dtype c1;
                               cells := cells c1
                                        ++ repeat None (nrows d2) |}
                            (cols u))
          /\ (forall c2, In c2 (cols d2) ->
                         existsb (fun c1 => resolver cs (name c1) (name c2))
                                 (cols d1) = false ->
                         In {| name := name c2; dtype := dtype c2;
                               cells := repeat None (nrows d1)
                                        ++ cells c2 |}
                            (cols u))).
Proof.
  intros cs. split.
  - rewrite union_dataframes_outcome.
    destruct (unionByName d1 d2 true); now eexists.
  - intros _ _. split; [|apply union_shape].
    rewrite union_dataframes_outcome.
    destruct (unionByName d1 d2 true) as [u0|e] eqn:E; [|reflexivity].
    destruct (unionByName_inv d1 d2 u0 E) as [H1 [H2 Ht]]. fold cs in H1, H2.
    intros [H | [H | H]]; congruence.
Qed.

(** *** Format tags, absent inputs, exceptions *)

Lemma reader_options_fold (kvs : Options) (r : DataFrameReader) :
  reader_options (fold_left reader_option kvs r) = reader_options r ++ kvs.
Proof.
  revert r. induction kvs as [|kv kvs IH]; intros r; cbn.
  - now rewrite app_nil_r.
  - rewrite IH. cbn. now rewrite <- app_assoc.
Qed.

Lemma reader_session_fold (kvs : Options) (r : DataFrameReader) :
  reader_session (fold_left reader_option kvs r) = reader_session r.
Proof.
  revert r. induction kvs as [|kv kvs IH]; intros r; cbn; [reflexivity|].
  now rewrite IH.
Qed.

Lemma writer_options_fold (kvs : Options) (w : DataFrameWriter) :
  writer_options (fold_left writer_option kvs w) = writer_options w ++ kvs.
Proof.
  revert w. induction kvs as [|kv kvs IH]; intros w; cbn.
  - now rewrite app_nil_r.
  - rewrite IH. cbn. now rewrite <- app_assoc.
Qed.

Lemma writer_mode_fold (kvs : Options) (w : DataFrameWriter) :
  writer_mode (fold_left writer_option kvs w) = writer_mode w.
Proof.
  revert w. induction kvs as [|kv kvs IH]; intros w; cbn; [reflexivity|].
  now rewrite IH.
Qed.

Lemma writer_df_fold (kvs : Options) (w : DataFrameWriter) :
  writer_df (fold_left writer_option kvs w) = writer_df w.
Proof.
  revert w. induction kvs as [|kv kvs IH]; intros w; cbn; [reflexivity|].
  now rewrite IH.
Qed.

Lemma truthy_items (options : option Options) :
  truthy options = false -> items options = [].
Proof. destruct options as [[|kv kvs]|]; cbn; congruence. Qed.

(** The reader after lines 44-49. *)
Lemma configured_reader (spark : SparkSession) (options : option Options) :
  let r := if truthy options
           then fold_left reader_option (items options) (spark_read spark)
           else spark_read spark in
  reader_session r = spark /\ reader_options r = items options.
Proof.
  cbv zeta. destruct (truthy options) eqn:E.
  - now rewrite reader_session_fold, reader_options_fold.
  - now rewrite (truthy_items _ E).
Qed.

(** The writer after lines 177-181. *)
Lemma configured_writer (d : DataFrame) (options : option Options) :
  let w := if truthy options
           then fold_left writer_option (items options)
                          (set_mode (df_write d) "overwrite")
           else set_mode (df_write d) "overwrite" in
  writer_df w = d /\ writer_mode w = "overwrite"
  /\ writer_options w = items options.
Proof.
  cbv zeta. destruct (truthy options) eqn:E.
  - now rewrite writer_df_fold, writer_mode_fold, writer_options_fold.
  - now rewrite (truthy_items _ E).
Qed.

Lemma reader_load_run (spark : SparkSession) (fmt : FileFormat)
      (r : DataFrameReader) (path : string) (options : option Options) :
  reader_session r = spark -> reader_options r = items options ->
  (print (MsgTryRead path) ;;
   try_except (df <- reader_load fmt r path ;; load_report path df)
              (fun e => print (MsgReadError path e) ;;
                        print MsgCheckReadPath ;; ret None))
  = read_run spark fmt path options.
Proof.
  intros Hs Ho. unfold read_run, reader_load, lift. rewrite Hs, Ho.
  destruct (source spark fmt (items options) path); reflexivity.
Qed.

Lemma writer_save_run
      (sink : FileFormat -> string -> Options -> string -> DataFrame
              -> Outcome unit)
      (fmt : FileFormat) (w : DataFrameWriter)
      (d : DataFrame) (output_path file_format : string)
      (options : option Options) :
  writer_df w = d -> writer_mode w = "overwrite" ->
  writer_options w = items options ->
  (print (MsgTrySave output_path file_format) ;;
   try_except (writer_save sink fmt w output_path ;; save_done output_path)
              (fun e => print (MsgSaveError output_path e) ;;
                        print MsgCheckWritePath ;; ret false))
  = write_run sink fmt d output_path file_format options.
Proof.
  intros Hd Hm Ho. unfold write_run, writer_save, lift. rewrite Hd, Hm, Ho.
  destruct (sink fmt "overwrite" (items options) output_path d); reflexivity.
Qed.

Lemma eqb_of_neq (a b : string) : a <> b -> (a =? b) = false.
Proof. apply String.eqb_neq. Qed.

Lemma eqb_of_eq (a b : string) : a = b -> (a =? b) = true.
Proof. apply String.eqb_eq. Qed.

(** C9. Format tags are compared in lowercase.  A tag whose lowercase form
    is json or csv makes the loader ask the engine for that format, and a
    tag whose lowercase form is csv, parquet or json makes the writer ask
    the engine to write that format; the stage then succeeds or fails as
    the engine does, and the unsupported-format branch is not taken. *)
Theorem format_tags_case_insensitive
        (spark : SparkSession)
        (sink : FileFormat -> string -> Options -> string -> DataFrame
                -> Outcome unit)
        (d : DataFrame) (path tag : string) (options : option Options) :
  (lower tag = "json" ->
   load_dataframe spark path tag options = read_run spark Json path options)
  /\ (lower tag = "csv" ->
      load_dataframe spark path tag options
      = read_run spark Csv path options)
  /\ (lower tag = "csv" ->
      save_dataframe sink (Some d) path tag options
      = write_run sink Csv d path tag options)
  /\ (lower tag = "parquet" ->
      save_dataframe sink (Some d) path tag options
      = write_run sink Parquet d path tag options)
  /\ (lower tag = "json" ->
      save_dataframe sink (Some d) path tag options
      = write_run sink Json d path tag options).
Proof.
  destruct (configured_reader spark options) as [Hrs Hro].
  destruct (configured_writer d options) as [Hwd [Hwm Hwo]].
  repeat split; intros H; unfold load_dataframe, save_dataframe;
    cbv zeta; rewrite H; cbn [String.eqb Ascii.eqb Bool.eqb];
    first [ now apply reader_load_run | now apply writer_save_run ].
Qed.

(** C6. A tag outside the supported set makes the loader return [None]
    after its two lines of output, and makes the writer return [False]
    without any write reaching the engine, whether or not a dataset was
    passed; neither raises. *)
Theorem unsupported_format_tags
        (spark : SparkSession)
        (sink : FileFormat -> string -> Options -> string -> DataFrame
                -> Outcome unit)
        (df : PyDF) (path tag : string) (options : option Options) :
  (lower tag <> "json" -> lower tag <> "csv" ->
   load_dataframe spark path tag options
   = ([EvPrint (MsgTryRead path); EvPrint (MsgUnsupportedRead tag)],
      Return None))
  /\ (lower tag <> "csv" -> lower tag <> "parquet" -> lower tag <> "json" ->
      outcome (save_dataframe sink df path tag options) = Return false
      /\ forall fmt mode opts p,
          ~ In (EvWrite fmt mode opts p)
               (trace (save_dataframe sink df path tag options))).
Proof.
  split.
  - intros Hj Hc. unfold load_dataframe. cbv zeta.
    rewrite (eqb_of_neq _ _ Hj), (eqb_of_neq _ _ Hc). reflexivity.
  - intros Hc Hp Hj. unfold save_dataframe. destruct df as [d|].
    + cbv zeta.
      rewrite (eqb_of_neq _ _ Hc), (eqb_of_neq _ _ Hp), (eqb_of_neq _ _ Hj).
      split; [reflexivity|].
      intros fmt mode opts p [H | [H | []]]; discriminate.
    + split; [reflexivity|].
      intros fmt mode opts p [H | []]; discriminate.
Qed.

(** C5. With an absent input on either side the unioner prints its error
    line and returns [None]; with an absent dataset the writer prints its
    error line and returns [False], whatever the path, tag and options.
    Nothing else happens: no union and no write is asked of the engine. *)
Theorem absent_inputs_short_circuit :
  (forall df2, union_dataframes None df2
               = ([EvPrint MsgUnionNull], Return None))
  /\ (forall df1, union_dataframes df1 None
                  = ([EvPrint MsgUnionNull], Return None))
  /\ (forall sink output_path file_format options,
         save_dataframe sink None output_path file_format options
         = ([EvPrint MsgSaveNull], Return false)).
Proof.
  repeat split.
  - intros [d1|]; reflexivity.
Qed.

Lemma try_except_returns {A} (body : M A) (handler : Exn -> M A) :
  (forall e, exists v, outcome (handler e) = Return v) ->
  exists v, outcome (try_except body handler) = Return v.
Proof.
  intros H. destruct body as [t [a | e]]; cbn.
  - now exists a.
  - destruct (H e) as [v Hv]. destruct (handler e) as [t' o].
    cbn in *. now exists v.
Qed.

Lemma bind_print_returns {A} (m : Msg) (k : M A) :
  (exists v, outcome k = Return v) ->
  exists v, outcome (print m ;; k) = Return v.
Proof. intros [v Hv]. destruct k as [t o]. cbn in *. now exists v. Qed.

(** The three stages with a handler return on every input. *)
Lemma load_dataframe_returns (spark : SparkSession) (path file_type : string)
      (options : option Options) :
  exists v, outcome (load_dataframe spark path file_type options) = Return v.
Proof.
  unfold load_dataframe. apply bind_print_returns.
  apply try_except_returns. intros e. now exists None.
Qed.

Lemma union_dataframes_returns (df1 df2 : PyDF) :
  exists v, outcome (union_dataframes df1 df2) = Return v.
Proof.
  destruct df1 as [d1|], df2 as [d2|]; try (now exists None).
  unfold union_dataframes. apply bind_print_returns.
  apply try_except_returns. intros e. now exists None.
Qed.

Lemma save_dataframe_returns
      (sink : FileFormat -> string -> Options -> string -> DataFrame
              -> Outcome unit)
      (df : PyDF) (output_path file_format : string)
      (options : option Options) :
  exists v,
    outcome (save_dataframe sink df output_path file_format options)
    = Return v.
Proof.
  destruct df as [d|]; [|now exists false].
  unfold save_dataframe. apply bind_print_returns.
  apply try_except_returns. intros e. now exists false.
Qed.

(** C4 fails on the harmonizer.  [process_dataframe] has no handler and no
    test for an absent dataset: given [None] it prints its first line and
    the first access to [columns] raises, whatever the mapping and the
    required-columns list. *)
Theorem process_dataframe_absent_raises
        (mapping : list (string * string)) (required : list string) :
  process_dataframe None mapping required
  = ([EvPrint MsgProcessStart], Raise (AttributeError "columns")).
Proof. destruct mapping as [|[old new] rest]; reflexivity. Qed.

(** *** Further properties of the loader and the writer *)

Lemma load_dataframe_run (spark : SparkSession) (path file_type : string)
      (options : option Options) :
  load_dataframe spark path file_type options
  = match reader_format file_type with
    | Some fmt => read_run spark fmt path options
    | None => ([EvPrint (MsgTryRead path);
                EvPrint (MsgUnsupportedRead file_type)], Return None)
    end.
Proof.
  destruct (configured_reader spark options) as [Hrs Hro].
  unfold load_dataframe, reader_format. cbv zeta.
  destruct (lower file_type =? "json").
  - now apply reader_load_run.
  - destruct (lower file_type =? "csv").
    + now apply reader_load_run.
    + reflexivity.
Qed.

Lemma save_dataframe_run
      (sink : FileFormat -> string -> Options -> string -> DataFrame
              -> Outcome unit)
      (d : DataFrame) (output_path file_format : string)
      (options : option Options) :
  save_dataframe sink (Some d) output_path file_format options
  = match writer_format file_format with
    | Some fmt => write_run sink fmt d output_path file_format options
    | None => ([EvPrint (MsgTrySave output_path file_format);
                EvPrint (MsgUnsupportedSave file_format)], Return false)
    end.
Proof.
  destruct (configured_writer d options) as [Hwd [Hwm Hwo]].
  unfold save_dataframe, writer_format. cbv zeta.
  destruct (lower file_format =? "csv").
  - now apply writer_save_run.
  - destruct (lower file_format =? "parquet").
    + now apply writer_save_run.
    + destruct (lower file_format =? "json").
      * now apply writer_save_run.
      * reflexivity.
Qed.

(** X1. The loader never raises, and it returns a table only when the tag
    is supported and the engine, asked for that format at that path with
    the options as given, answered with that very table: the report the
    loader prints does not change the table.  An unsupported tag or an
    engine error gives [None]. *)
Theorem load_dataframe_result (spark : SparkSession)
        (path file_type : string) (options : option Options) :
  (exists v, outcome (load_dataframe spark path file_type options)
             = Return v)
  /\ (forall df,
         outcome (load_dataframe spark path file_type options)
         = Return (Some df) ->
         exists fmt, reader_format file_type = Some fmt
                     /\ source spark fmt (items options) path = Return df)
  /\ (reader_format file_type = None ->
      outcome (load_dataframe spark path file_type options) = Return None)
  /\ (forall fmt e,
         reader_format file_type = Some fmt ->
         source spark fmt (items options) path = Raise e ->
         outcome (load_dataframe spark path file_type options)
         = Return None).
Proof.
  rewrite load_dataframe_run. unfold read_run.
  destruct (reader_format file_type) as [fmt|].
  - destruct (source spark fmt (items options) path) as [df0|e] eqn:E; cbn.
    + split; [now eexists|]. split; [|split].
      * intros df H. injection H as <-. now exists fmt.
      * discriminate.
      * intros fmt' e' Hf Hs. injection Hf as <-. congruence.
    + split; [now eexists|]. split; [|split].
      * discriminate.
      * discriminate.
      * reflexivity.
  - cbn. split; [now eexists|]. split; [|split].
    + discriminate.
    + reflexivity.
    + discriminate.
Qed.

(** X2. The writer never raises: it returns [True] or [False], and [True]
    exactly when a dataset was passed, the tag is supported and the engine
    accepted the write of that dataset in that format, in overwrite mode,
    at the given path with the options as given. *)
Theorem save_dataframe_result
        (sink : FileFormat -> string -> Options -> string -> DataFrame
                -> Outcome unit)
        (df : PyDF) (output_path file_format : string)
        (options : option Options) :
  (exists b, outcome (save_dataframe sink df output_path file_format
                                     options) = Return b)
  /\ (outcome (save_dataframe sink df output_path file_format options)
      = Return true
      <-> exists d fmt,
          df = Some d /\ writer_format file_format = Some fmt
          /\ sink fmt "overwrite" (items options) output_path d
             = Return tt).
Proof.
  destruct df as [d|].
  - rewrite save_dataframe_run. unfold write_run.
    destruct (writer_format file_format) as [fmt|].
    + destruct (sink fmt "overwrite" (items options) output_path d)
        as [[]|e] eqn:E; cbn.
      * split; [now eexists|]. split; [|reflexivity].
        intros _. now exists d, fmt.
      * split; [now eexists|]. split; [discriminate|].
        intros [d' [fmt' [Hd [Hf Hs]]]].
        injection Hd as <-. injection Hf as <-. congruence.
    + cbn. split; [now eexists|]. split; [discriminate|].
      intros [d' [fmt' [_ [Hf _]]]]. discriminate.
  - cbn. split; [now eexists|]. split; [discriminate|].
    intros [d' [fmt' [Hd _]]]. discriminate.
Qed.

(** X3. Whatever the writer asks the engine to write, it asks in overwrite
    mode, at the output path it was given, with the options it was given
    and in the format its tag names, and only for a dataset that is
    present. *)
Theorem save_dataframe_writes_overwrite
        (sink : FileFormat -> string -> Options -> string -> DataFrame
                -> Outcome unit)
        (df : PyDF) (output_path file_format : string)
        (options : option Options)
        (fmt : FileFormat) (mode : string) (opts : Options) (p : string) :
  In (EvWrite fmt mode opts p)
     (trace (save_dataframe sink df output_path file_format options)) ->
  mode = "overwrite" /\ opts = items options /\ p = output_path
  /\ writer_format file_format = Some fmt /\ df <> None.
Proof.
  destruct df as [d|].
  - rewrite save_dataframe_run. unfold write_run.
    destruct (writer_format file_format) as [fmt'|].
    + destruct (sink fmt' "overwrite" (items options) output_path d);
        cbn; intros H;
        repeat (destruct H as [H | H]; [try discriminate|]);
        try contradiction;
        injection H as <- <- <- <-; repeat split; discriminate.
    + cbn. intros [H | [H | []]]; discriminate.
  - cbn. intros [H | []]; discriminate.
Qed.

(** *** Further properties of the unioner *)

(** X4. The unioner never raises, whether its inputs are present or
    absent: on two present tables it returns a table or [None], and it
    returns a table only when the engine's duplicate check found no name
    repeated within either table. *)
Theorem union_dataframes_success (d1 d2 : DataFrame) :
  (forall df1 df2, exists v, outcome (union_dataframes df1 df2) = Return v)
  /\ (forall u,
         outcome (union_dataframes (Some d1) (Some d2)) = Return (Some u) ->
         duplicate_check (caseSensitive d1) (columns d1) = false
         /\ duplicate_check (caseSensitive d1) (columns d2) = false)
  /\ ((forall u, outcome (union_dataframes (Some d1) (Some d2))
                 <> Return (Some u))
      -> outcome (union_dataframes (Some d1) (Some d2)) = Return None).
Proof.
  split; [|split].
  - intros [a|] [b|]; try (now exists None).
    rewrite union_dataframes_outcome.
    destruct (unionByName a b true); now eexists.
  - rewrite union_dataframes_outcome. intros u H.
    destruct (unionByName d1 d2 true) as [u'|e] eqn:E; [|discriminate].
    destruct (unionByName_inv d1 d2 u' E) as [H1 [H2 _]]. now split.
  - rewrite union_dataframes_outcome.
    destruct (unionByName d1 d2 true) as [u|e]; [|reflexivity].
    intros H. now destruct (H u).
Qed.

(** X5. A union that goes through keeps the tables rectangular and loses
    nothing: when both inputs hold one cell per row in every column, so
    does the result; its row count is the sum of the inputs' row counts;
    and its column names begin with those of the first input, in order. *)
Theorem union_dataframes_well_formed (d1 d2 u : DataFrame) :
  well_formed d1 -> well_formed d2 ->
  outcome (union_dataframes (Some d1) (Some d2)) = Return (Some u) ->
  well_formed u
  /\ count u = count d1 + count d2
  /\ exists added, columns u = columns d1 ++ added.
Proof. apply union_result_shape. Qed.

(** *** Further properties of the harmonizer *)

Lemma require_fold_present (cur required : list string) (d : DataFrame) :
  Forall (fun r => In (lower r) cur) required ->
  fold_left (require_pure cur) required d = d
  /\ require_log cur required
     = map (fun r => EvPrint (MsgAlreadyExists r)) required.
Proof.
  induction 1 as [|r rest Hr _ IH]; [now split|].
  apply str_in_In in Hr. cbn [fold_left require_log map].
  unfold require_pure at 2. rewrite Hr. cbn [negb].
  destruct IH as [IH1 IH2]. split; [exact IH1|].
  f_equal. exact IH2.
Qed.

Lemma rename_absent (d : DataFrame) (m : list (string * string)) :
  Forall (fun kv => ~ In (fst kv) (columns d)) m ->
  renamed d m = d
  /\ rename_log d m = map (fun kv => EvPrint (MsgRenameSkipped (fst kv))) m.
Proof.
  induction 1 as [|kv rest Hk _ IH]; [now split|].
  apply str_in_false in Hk.
  cbn [renamed fold_left rename_log map]. unfold rename_pure.
  rewrite Hk. fold (renamed d rest). destruct IH as [IH1 IH2].
  split; [exact IH1|]. f_equal. exact IH2.
Qed.

(** X6. Required names that are already columns, in whatever letter case,
    leave the table exactly as it is: with no renames to do the harmonizer
    returns its input, after one "already exists" line per required name.
    In particular a column present under another casing is not renamed to
    the casing of the list. *)
Theorem required_present_untouched (d : DataFrame) (required : list string) :
  Forall (fun r => In (lower r) (map lower (columns d))) required ->
  process_dataframe (Some d) [] required
  = (EvPrint MsgProcessStart
       :: map (fun r => EvPrint (MsgAlreadyExists r)) required
       ++ process_report d,
     Return (Some d)).
Proof.
  intros H. rewrite process_dataframe_Some. unfold harmonized.
  cbn [renamed fold_left rename_log app].
  destruct (require_fold_present _ _ d H) as [-> ->]. reflexivity.
Qed.

(** X8. A mapping none of whose keys is, letter for letter, a column of the
    table renames nothing: every pair is reported as skipped and the run
    continues as with an empty mapping.  The test is exact even in a
    session that ignores letter case. *)
Theorem absent_keys_are_skipped (d : DataFrame)
        (mapping : list (string * string)) (required : list string) :
  Forall (fun kv => ~ In (fst kv) (columns d)) mapping ->
  outcome (process_dataframe (Some d) mapping required)
  = outcome (process_dataframe (Some d) [] required)
  /\ trace (process_dataframe (Some d) mapping required)
     = EvPrint MsgProcessStart
         :: map (fun kv => EvPrint (MsgRenameSkipped (fst kv))) mapping
         ++ tl (trace (process_dataframe (Some d) [] required)).
Proof.
  intros H. rewrite !process_dataframe_Some. unfold outcome, trace.
  cbn [fst snd tl rename_log app renamed fold_left]. unfold harmonized.
  cbn [renamed fold_left].
  destruct (rename_absent d mapping H) as [Hr Hl].
  fold (renamed d mapping). rewrite Hr, Hl. now split.
Qed.

(** X7. Under the agreement of the resolver with [lower] on the names
    involved (no column name, new name or required name is matched by a
    required name of a different lowercase form), harmonizing is idempotent
    in its required-columns step: feeding the harmonizer's result back with
    the same required-columns list and no renames returns that result
    unchanged. *)
Theorem harmonizing_again_changes_nothing (d h : DataFrame)
        (mapping : list (string * string)) (required : list string) :
  names_agree (caseSensitive d)
              ((columns d ++ map snd mapping) ++ required) required = true ->
  outcome (process_dataframe (Some d) mapping required) = Return (Some h) ->
  outcome (process_dataframe (Some h) [] required) = Return (Some h).
Proof.
  rewrite !process_dataframe_outcome. intros Hag H. injection H as <-.
  f_equal. f_equal. unfold harmonized at 1. cbn [renamed fold_left].
  apply require_fold_present. now apply harmonized_has_required.
Qed.

(** X9. Under the agreement of the resolver with [lower] between the
    column and new names and the required names, what the harmonizer adds
    comes after the renamed columns and has one shape: each added column is
    all null, of string type, with one cell per row of the input, and
    carries, letter for letter, a name of the required-columns list whose
    lowercase form was not among the columns after renaming.  At most one
    column is added per entry of the list. *)
Theorem appended_columns_shape (d : DataFrame)
        (mapping : list (string * string)) (required : list string) :
  names_agree (caseSensitive d) (columns d ++ map snd mapping) required
  = true ->
  exists r d' appended,
    outcome (process_dataframe (Some d) mapping []) = Return (Some r)
    /\ outcome (process_dataframe (Some d) mapping required)
       = Return (Some d')
    /\ cols d' = cols r ++ appended
    /\ length appended <= length required
    /\ Forall (fun c =>
                 exists col,
                   In col required
                   /\ ~ In (lower col) (map lower (columns r))
                   /\ c = {| name := col; dtype := StringType;
                             cells := repeat None (nrows d) |}) appended.
Proof.
  intros Hag.
  exists (renamed d mapping), (harmonized d mapping required).
  eexists. split; [apply process_dataframe_outcome|].
  split; [apply process_dataframe_outcome|].
  split; [now apply harmonized_cols|]. split.
  - pose proof (extra_fold_length (caseSensitive d) (nrows d)
                  (to_add (map lower (columns (renamed d mapping))) required)
                  []).
    pose proof (to_add_length (map lower (columns (renamed d mapping)))
                              required).
    cbn in *. lia.
  - apply Forall_forall. intros c Hin. apply extra_fold_shape in Hin.
    destruct Hin as [[] | [col [Hcol ->]]]. apply to_add_In in Hcol.
    destruct Hcol as [Hcol Hlow]. exists col. now repeat split.
Qed.

(** *** Distinct names through the harmonizer, and into the unioner *)

Lemma has_duplicate_app (cs : bool) (l1 l2 : list string) :
  has_duplicate cs l1 = false ->
  has_duplicate cs l2 = false ->
  (forall a b, In a l1 -> In b l2 -> resolver cs a b = false) ->
  has_duplicate cs (l1 ++ l2) = false.
Proof.
  induction l1 as [|x l1 IH]; intros H1 H2 H; [exact H2|].
  cbn in H1. apply orb_false_iff in H1. destruct H1 as [Hx Hl].
  cbn. apply orb_false_iff. split.
  - apply existsb_none. intros y Hy. apply in_app_or in Hy.
    destruct Hy as [Hy | Hy].
    + exact (existsb_resolver_false cs x l1 Hx y Hy).
    + apply H; [now left | assumption].
  - apply IH; [assumption | assumption |].
    intros a b Ha Hb. apply H; [now right | assumption].
Qed.


Lemma names_step_distinct (cs : bool) (names : list string) (col : string) :
  has_duplicate cs names = false ->
  has_duplicate cs (names_step cs names col) = false.
Proof.
  intros H. unfold names_step.
  destruct (existsb (fun x => resolver cs x col) names) eqn:E.
  - clear E. induction names as [|x l IH]; [reflexivity|].
    cbn in H. apply orb_false_iff in H. destruct H as [Hx Hl].
    cbn [map has_duplicate]. apply orb_false_iff. split; [|now apply IH].
    apply existsb_none. intros y' Hy'. apply in_map_iff in Hy'.
    destruct Hy' as [y [<- Hy]].
    pose proof (existsb_resolver_false cs x l Hx y Hy) as Hxy.
    destruct (resolver cs x col) eqn:Rx, (resolver cs y col) eqn:Ry.
    + rewrite resolver_sym in Ry.
      rewrite (resolver_trans cs x col y Rx Ry) in Hxy. discriminate.
    + now rewrite resolver_sym.
    + exact Rx.
    + exact Hxy.
  - apply has_duplicate_app; [assumption | reflexivity |].
    intros a b Ha [<- | []].
    destruct (resolver cs a col) eqn:R; [|reflexivity].
    assert (existsb (fun x => resolver cs x col) names = true)
      by (apply existsb_exists; now exists a).
    congruence.
Qed.

Lemma withColumn_distinct (d : DataFrame) (col : string) (e : ColumnExpr) :
  distinct_names d -> distinct_names (withColumn d col e).
Proof.
  unfold distinct_names. intros H. rewrite withColumn_columns.
  cbn [caseSensitive withColumn]. now apply names_step_distinct.
Qed.

Lemma require_fold_distinct (cur required : list string) (d : DataFrame) :
  distinct_names d ->
  distinct_names (fold_left (require_pure cur) required d).
Proof.
  revert d. induction required as [|col rest IH]; intros d H; [exact H|].
  cbn. apply IH. unfold require_pure. destruct (negb _); [|exact H].
  now apply withColumn_distinct.
Qed.

Lemma harmonized_distinct (d : DataFrame) (m : list (string * string))
      (required : list string) :
  distinct_names (renamed d m) -> distinct_names (harmonized d m required).
Proof. intros H. unfold harmonized. now apply require_fold_distinct. Qed.

(** X10. The required-columns step never creates a name clash: when the
    table left by the renames has no two columns with the same name for
    the session's resolver, neither has the table the harmonizer returns,
    whatever the required-columns list (repeated entries and case variants
    included). *)
Theorem harmonizer_keeps_names_distinct (d r : DataFrame)
        (mapping : list (string * string)) (required : list string) :
  outcome (process_dataframe (Some d) mapping []) = Return (Some r) ->
  distinct_names r ->
  exists d',
    outcome (process_dataframe (Some d) mapping required) = Return (Some d')
    /\ distinct_names d'.
Proof.
  rewrite process_dataframe_outcome. intros H Hd. injection H as <-.
  exists (harmonized d mapping required).
  split; [apply process_dataframe_outcome|].
  now apply harmonized_distinct.
Qed.











(** *** The stages together *)

(** X12. The pipeline as the stages compose: harmonize two tables against
    the same required-columns list, each with its own mapping, and unite
    the results.  When the unioner returns a table, it has as many rows as
    the two original tables together and it holds one cell per row in
    every column if the originals did.  If moreover no two columns of a
    harmonized table match for the resolver and, on the names of the first
    table, its new names and the required names, the resolver matches no
    required name with a name of a different lowercase form, then every
    required name is among the columns of the union up to letter case. *)
Theorem harmonize_then_union (d1 d2 h1 h2 u : DataFrame)
        (m1 m2 : list (string * string)) (required : list string) :
  outcome (process_dataframe (Some d1) m1 required) = Return (Some h1) ->
  outcome (process_dataframe (Some d2) m2 required) = Return (Some h2) ->
  outcome (union_dataframes (Some h1) (Some h2)) = Return (Some u) ->
  (distinct_names h1 ->
   has_duplicate (caseSensitive h1) (columns h2) = false ->
   names_agree (caseSensitive d1)
               ((columns d1 ++ map snd m1) ++ required) required = true ->
   Forall (fun r => In (lower r) (map lower (columns u))) required)
  /\ count u = count d1 + count d2
  /\ (well_formed d1 -> well_formed d2 -> well_formed u).
Proof.
  rewrite !process_dataframe_outcome. intros E1 E2 Hu.
  injection E1 as <-. injection E2 as <-.
  destruct (union_result_columns _ _ _ Hu) as [Hn [added Hc]].
  split; [|split].
  - intros _ _ Hag.
    pose proof (harmonized_has_required d1 m1 required Hag) as H.
    rewrite Forall_forall in *. intros r Hr. rewrite Hc, map_app.
    apply in_or_app. left. now apply H.
  - rewrite Hn. unfold count. now rewrite !harmonized_nrows.
  - intros W1 W2.
    apply (union_result_shape _ _ _
             (harmonized_well_formed d1 m1 required W1)
             (harmonized_well_formed d2 m2 required W2) Hu).
Qed.

Lemma rename_log_prints (d : DataFrame) (m : list (string * string))
      (p : Event -> bool) :
  (forall msg, p (EvPrint msg) = true) ->
  forallb p (rename_log d m) = true.
Proof.
  intros Hp. revert d. induction m as [|kv m IH]; intros d; [reflexivity|].
  cbn. now rewrite Hp, IH.
Qed.

Lemma require_log_prints (cur required : list string) (p : Event -> bool) :
  (forall msg, p (EvPrint msg) = true) ->
  forallb p (require_log cur required) = true.
Proof.
  intros Hp. unfold require_log.
  induction required as [|r rest IH]; [reflexivity|].
  cbn [map forallb]. now rewrite Hp, IH.
Qed.

(** X13. Each stage asks the engine for its own kind of work only.  The
    harmonizer never reads, unites or writes; the loader never unites or
    writes; the unioner never reads or writes; the writer never reads or
    unites.  This holds on every input, absent datasets and failing engine
    calls included. *)
Theorem stages_keep_to_their_engine_calls :
  (forall df mapping required,
      forallb (fun ev => negb (is_read ev || is_union ev || is_write ev))
              (trace (process_dataframe df mapping required)) = true)
  /\ (forall spark path file_type options,
         forallb (fun ev => negb (is_union ev || is_write ev))
                 (trace (load_dataframe spark path file_type options))
         = true)
  /\ (forall df1 df2,
         forallb (fun ev => negb (is_read ev || is_write ev))
                 (trace (union_dataframes df1 df2)) = true)
  /\ (forall sink df output_path file_format options,
         forallb (fun ev => negb (is_read ev || is_union ev))
                 (trace (save_dataframe sink df output_path file_format
                                        options)) = true).
Proof.
  split; [|split; [|split]].
  - intros [d|] mapping required.
    + rewrite process_dataframe_Some. unfold trace. cbn [fst forallb].
      rewrite !forallb_app, rename_log_prints, require_log_prints
        by reflexivity.
      reflexivity.
    + destruct mapping as [|[o n] rest]; reflexivity.
  - intros spark path file_type options. rewrite load_dataframe_run.
    unfold read_run. destruct (reader_format file_type) as [fmt|];
      [|reflexivity].
    now destruct (source spark fmt (items options) path).
  - intros [d1|] [d2|]; try reflexivity.
    rewrite union_dataframes_Some.
    now destruct (unionByName d1 d2 true).
  - intros sink [d|] output_path file_format options; [|reflexivity].
    rewrite save_dataframe_run. unfold write_run.
    destruct (writer_format file_format) as [fmt|]; [|reflexivity].
    now destruct (sink fmt "overwrite" (items options) output_path d).
Qed.

(** X14. Under the agreement of the resolver with [lower] between the
    column and new names and the required names (always so in a
    case-sensitive session), harmonization removes no column: the result's
    columns begin with the input's columns, one for one and in the same
    order, each with its type and values and with either its own name or
    one of the mapping's new names; what follows them was appended. *)
Theorem harmonization_keeps_columns_when_names_agree (d : DataFrame)
        (mapping : list (string * string)) (required : list string) :
  names_agree (caseSensitive d) (columns d ++ map snd mapping) required
  = true ->
  exists d' kept appended,
    outcome (process_dataframe (Some d) mapping required) = Return (Some d')
    /\ cols d' = kept ++ appended
    /\ nrows d' = nrows d
    /\ Forall2 (fun c c' => dtype c' = dtype c /\ cells c' = cells c
                            /\ (name c' = name c
                                \/ In (name c') (map snd mapping)))
               (cols d) kept.
Proof.
  intros Hag.
  exists (harmonized d mapping required), (cols (renamed d mapping)).
  eexists. split; [apply process_dataframe_outcome|].
  split; [now apply harmonized_cols|].
  split; [apply harmonized_nrows|].
  rewrite renamed_cols.
  induction (cols d) as [|c l IH]; cbn; constructor.
  - repeat split. apply name_after_range.
  - exact IH.
Qed.

(** X15. Under the agreement of the resolver with [lower] on the names
    involved (always so in a case-sensitive session), every name of the
    required-columns list is present in the table the harmonizer returns,
    names being compared by their lowercase forms. *)
Theorem required_columns_present_when_names_agree (d : DataFrame)
        (mapping : list (string * string)) (required : list string) :
  names_agree (caseSensitive d)
              ((columns d ++ map snd mapping) ++ required) required = true ->
  exists d',
    outcome (process_dataframe (Some d) mapping required) = Return (Some d')
    /\ Forall (fun r => In (lower r) (map lower (columns d'))) required.
Proof.
  intros Hag. exists (harmonized d mapping required).
  split; [apply process_dataframe_outcome|].
  now apply harmonized_has_required.
Qed.

End Pipeline.

(** ** Runs on the sample tables

    The runs below take [ascii_lower] for [str.lower] and [fold_long_s]
    for the engine's folding; on the names of the samples (ASCII names and
    the long s) they are what Python and the engine compute. *)

(** C1 as stated fails.  With the mapping name -> nome, nome -> produto the
    key [name] is a column of the input, yet its new name [nome] is not a
    column of the result: the second pair renamed it again. *)
Lemma rename_chain_loses_new_name :
  In ("name", "nome") [("name", "nome"); ("nome", "produto")]
  /\ In "name" (columns markets_a)
  /\ exists d',
      outcome (process_dataframe ascii_lower fold_long_s (Some markets_a)
                         [("name", "nome"); ("nome", "produto")] [])
      = Return (Some d')
      /\ columns d' = ["id"; "produto"]
      /\ ~ In "nome" (columns d').
Proof.
  split; [now left|]. split; [right; now left|].
  eexists. split; [reflexivity|]. split; [reflexivity|]. not_in_list.
Qed.

(** A key that the required-columns list names again comes back as an
    all-null column. *)
Example renamed_key_required_again :
  outcome (process_dataframe ascii_lower fold_long_s (Some markets_a) [("name", "nome")] ["name"])
  = Return (Some
      {| caseSensitive := false; nrows := 2;
         cols := [ {| name := "id"; dtype := LongType;
                      cells := [Some (VLong 1); Some (VLong 2)] |};
                   {| name := "nome"; dtype := StringType;
                      cells := [Some (VString "Ana"); None] |};
                   {| name := "name"; dtype := StringType;
                      cells := [None; None] |} ] |}).
Proof. reflexivity. Qed.

(** A pair that renames a column to its own name leaves the key in place. *)
Example self_rename_keeps_key :
  exists d',
    outcome (process_dataframe ascii_lower fold_long_s (Some markets_a) [("name", "name")] [])
    = Return (Some d')
    /\ In "name" (columns d').
Proof. eexists. split; [reflexivity|]. right. now left. Qed.

(** When two columns differ by case only and the session ignores case,
    renaming one renames both, and the pair keyed by the other is skipped. *)
Example case_twins_renamed_together :
  has_duplicate fold_long_s (caseSensitive case_twins) (columns case_twins)
  = true
  /\ exists d',
      outcome (process_dataframe ascii_lower fold_long_s (Some case_twins) [("a", "z"); ("A", "y")] [])
      = Return (Some d')
      /\ columns d' = ["z"; "z"]
      /\ ~ In "y" (columns d').
Proof.
  split; [reflexivity|].
  eexists. split; [reflexivity|]. split; [reflexivity|]. not_in_list.
Qed.

(** The second table of the pipeline: ID becomes id, name is added. *)
Example harmonize_markets_b :
  outcome (process_dataframe ascii_lower fold_long_s (Some markets_b) [("ID", "id")] ["id"; "name"; "city"])
  = Return (Some
      {| caseSensitive := false; nrows := 1;
         cols := [ {| name := "id"; dtype := LongType;
                      cells := [Some (VLong 3)] |};
                   {| name := "city"; dtype := StringType;
                      cells := [Some (VString "Recife")] |};
                   {| name := "name"; dtype := StringType;
                      cells := [None] |} ] |}).
Proof. reflexivity. Qed.

Lemma markets_b_id_renamed :
  exists d',
    outcome (process_dataframe ascii_lower fold_long_s (Some markets_b) [("ID", "id")]
                       ["id"; "name"; "city"])
    = Return (Some d')
    /\ ~ In "ID" (columns d')
    /\ In "id" (columns d')
    /\ forall i c,
        nth_error (cols markets_b) i = Some c -> name c = "ID" ->
        nth_error (cols d') i
        = Some {| name := "id"; dtype := dtype c; cells := cells c |}.
Proof.
  refine (proj1 (renames_take_effect ascii_lower fold_long_s markets_b
                   [("ID", "id")] ["id"; "name"; "city"] "ID" "id"
                   _ _ _ _ _ _ _)).
  - reflexivity.
  - constructor; [intros H; exact H | constructor].
  - reflexivity.
  - reflexivity.
  - reflexivity.
  - now left.
  - now left.
Defined.

(** C2 fails on the code.  The table has the single column [x]; the
    required names are s and the long s.  Python's lowercase keeps the two
    apart, so the adding branch runs for both; the engine folds them
    together, so the second [withColumn] replaces the column the first one
    added.  The result has the columns [x] and long s, and the lowercase
    form of the required name s is not among their lowercase forms. *)
Lemma long_s_displaces_required_name :
  ascii_lower long_s = long_s
  /\ fold_long_s long_s = fold_long_s "s"
  /\ exists d',
      process_dataframe ascii_lower fold_long_s (Some table_x) []
                        ["s"; long_s]
      = (EvPrint MsgProcessStart
           :: [EvPrint (MsgAddedNull "s"); EvPrint (MsgAddedNull long_s)]
           ++ process_report d',
         Return (Some d'))
      /\ columns d' = ["x"; long_s]
      /\ In "s" ["s"; long_s]
      /\ ~ In (ascii_lower "s") (map ascii_lower (columns d')).
Proof.
  split; [reflexivity|]. split; [reflexivity|].
  eexists. split; [reflexivity|]. split; [reflexivity|].
  split; [now left|]. not_in_list.
Qed.

(** C7 fails on the code.  The table has the single column [s], with the
    values 7 and 8; the required name is the long s.  Its lowercase form is
    not the lowercase form of [s], so the adding branch runs; the engine
    matches it with [s], so [withColumn] replaces that column.  The result
    has one column, named long s and all null: the input column and its
    values are gone. *)
Lemma long_s_overwrites_column :
  cols table_s = [ {| name := "s"; dtype := LongType;
                      cells := [Some (VLong 7); Some (VLong 8)] |} ]
  /\ process_dataframe ascii_lower fold_long_s (Some table_s) [] [long_s]
     = (EvPrint MsgProcessStart
          :: [EvPrint (MsgAddedNull long_s)]
          ++ process_report
               {| caseSensitive := false; nrows := 2;
                  cols := [ {| name := long_s; dtype := StringType;
                               cells := [None; None] |} ] |},
        Return (Some
          {| caseSensitive := false; nrows := 2;
             cols := [ {| name := long_s; dtype := StringType;
                          cells := [None; None] |} ] |})).
Proof. split; reflexivity. Qed.

(** C8 as stated fails.  With the required names City and city on a table
    that has neither, the adding branch runs for both, yet the result has
    one column more than the input, not two, and none is named City: in a
    session that ignores case the second [withColumn] replaced the column
    the first one had added. *)
Lemma case_variant_replaces_added_column :
  exists d',
    process_dataframe ascii_lower fold_long_s (Some markets_a) []
                      ["City"; "city"]
    = (EvPrint MsgProcessStart
         :: [EvPrint (MsgAddedNull "City"); EvPrint (MsgAddedNull "city")]
         ++ process_report d',
       Return (Some d'))
    /\ columns d' = ["id"; "name"; "city"]
    /\ length (cols d') = length (cols markets_a) + 1
    /\ ~ In "City" (columns d').
Proof.
  eexists. split; [reflexivity|]. split; [reflexivity|].
  split; [reflexivity|]. not_in_list.
Qed.

(** With two required entries that differ by case only, the second
    [withColumn] replaces the column the first one added when the session
    ignores case, and adds a second column when it does not. *)
Example case_variants_required_twice :
  (exists d',
      outcome (process_dataframe ascii_lower fold_long_s (Some markets_a) [] ["City"; "city"])
      = Return (Some d')
      /\ columns d' = ["id"; "name"; "city"])
  /\ (exists d',
         outcome (process_dataframe ascii_lower fold_long_s (Some markets_a_cs) [] ["City"; "city"])
         = Return (Some d')
         /\ columns d' = ["id"; "name"; "City"; "city"]).
Proof. split; eexists; split; reflexivity. Qed.

Lemma stale_column_list_markets_a :
  trace (process_dataframe ascii_lower fold_long_s (Some markets_a) [] ["City"; "city"])
  = EvPrint MsgProcessStart
      :: [EvPrint (MsgAddedNull "City"); EvPrint (MsgAddedNull "city")]
      ++ process_report
           (harmonized ascii_lower fold_long_s markets_a []
                       ["City"; "city"]).
Proof.
  refine (stale_column_list_adds_twice ascii_lower fold_long_s markets_a
            [] [] [] [] "City" "city" _ _).
  - reflexivity.
  - not_in_list.
Defined.

Lemma appended_column_markets_a :
  exists d2,
    outcome (process_dataframe ascii_lower fold_long_s (Some markets_a) [] ([] ++ ["city"]))
    = Return (Some d2)
    /\ In (EvPrint (MsgAddedNull "city"))
          (trace (process_dataframe ascii_lower fold_long_s (Some markets_a) [] ([] ++ ["city"])))
    /\ cols d2 = cols markets_a
                 ++ [{| name := "city"; dtype := StringType;
                        cells := repeat None (nrows markets_a) |}]
    /\ nrows d2 = nrows markets_a.
Proof.
  refine (appended_column_frame ascii_lower fold_long_s markets_a markets_a
            markets_a [] [] "city" _ _ _ _).
  - reflexivity.
  - reflexivity.
  - not_in_list.
  - reflexivity.
Defined.

(** C3 as stated fails.  Both inputs are present and well formed, but
    their shared column is a long on one side and a boolean on the other:
    the engine refuses the union and the unioner returns [None]. *)
Lemma union_of_incompatible_tables_is_absent :
  well_formed left_xy /\ well_formed right_yz_flag
  /\ distinct_names fold_long_s left_xy
  /\ distinct_names fold_long_s right_yz_flag
  /\ union_dataframes fold_long_s ascii_lower legacy_widerType legacy_cast (Some left_xy) (Some right_yz_flag)
     = ([EvPrint MsgUnionStart; EvUnionByName true;
         EvPrint (MsgUnionError
                    (AnalysisException "incompatible column types"));
         EvPrint MsgUnionCheckTypes],
        Return None).
Proof.
  repeat split; repeat constructor.
Qed.

(** Columns [x, y] united with columns [y, z]. *)
Example union_xy_yz :
  outcome (union_dataframes fold_long_s ascii_lower legacy_widerType legacy_cast (Some left_xy) (Some right_yz))
  = Return (Some
      {| caseSensitive := false; nrows := 3;
         cols := [ {| name := "x"; dtype := LongType;
                      cells := [Some (VLong 1); Some (VLong 2); None] |};
                   {| name := "y"; dtype := LongType;
                      cells := [Some (VLong 10); Some (VLong 20);
                                Some (VLong 30)] |};
                   {| name := "z"; dtype := StringType;
                      cells := [None; None; Some (VString "k")] |} ] |}).
Proof. reflexivity. Qed.

(** In a session that ignores case, [ID] of the second table is united
    with [id] of the first: the result has no column named [ID]. *)
Example union_merges_case_variants :
  exists u,
    outcome (union_dataframes fold_long_s ascii_lower legacy_widerType legacy_cast (Some markets_a) (Some markets_b)) = Return (Some u)
    /\ columns u = ["id"; "name"; "city"].
Proof. eexists. split; reflexivity. Qed.

Lemma union_xy_yz_succeeds :
  exists u,
    outcome (union_dataframes fold_long_s ascii_lower legacy_widerType
                              legacy_cast (Some left_xy) (Some right_yz))
    = Return (Some u)
    /\ count u = 3
    /\ columns u = ["x"; "y"; "z"].
Proof.
  eexists. split; [reflexivity|].
  refine (let H := proj2 (proj2 (union_of_compatible_tables fold_long_s
                                   ascii_lower legacy_widerType legacy_cast
                                   left_xy right_yz) eq_refl eq_refl) _ _
          in conj (proj1 H) (proj1 (proj2 H))).
  reflexivity.
Defined.

Lemma format_tags_upper_and_mixed_case :
  load_dataframe ascii_lower empty_session "a.json" "JSON" None
  = read_run empty_session Json "a.json" None
  /\ load_dataframe ascii_lower empty_session "b.csv" "Csv" None
     = read_run empty_session Csv "b.csv" None
  /\ save_dataframe ascii_lower accepting_sink (Some markets_a) "out" "CSV" None
     = write_run accepting_sink Csv markets_a "out" "CSV" None
  /\ save_dataframe ascii_lower accepting_sink (Some markets_a) "out" "Parquet" None
     = write_run accepting_sink Parquet markets_a "out" "Parquet" None
  /\ save_dataframe ascii_lower accepting_sink (Some markets_a) "out" "Json" None
     = write_run accepting_sink Json markets_a "out" "Json" None.
Proof.
  pose proof (format_tags_case_insensitive ascii_lower empty_session
                accepting_sink markets_a) as T.
  split; [exact (proj1 (T "a.json" "JSON" None) eq_refl)|].
  split; [exact (proj1 (proj2 (T "b.csv" "Csv" None)) eq_refl)|].
  split; [exact (proj1 (proj2 (proj2 (T "out" "CSV" None))) eq_refl)|].
  split.
  - exact (proj1 (proj2 (proj2 (proj2 (T "out" "Parquet" None)))) eq_refl).
  - exact (proj2 (proj2 (proj2 (proj2 (T "out" "Json" None)))) eq_refl).
Defined.

Lemma unsupported_format_tag_xml :
  load_dataframe ascii_lower empty_session "a.xml" "xml" None
  = ([EvPrint (MsgTryRead "a.xml"); EvPrint (MsgUnsupportedRead "xml")],
     Return None)
  /\ outcome (save_dataframe ascii_lower accepting_sink (Some markets_a) "a.xml" "xml" None)
     = Return false
  /\ forall fmt mode opts p,
      ~ In (EvWrite fmt mode opts p)
           (trace (save_dataframe ascii_lower accepting_sink (Some markets_a) "a.xml" "xml"
                        None)).
Proof.
  pose proof (unsupported_format_tags ascii_lower empty_session
                accepting_sink (Some markets_a) "a.xml" "xml" None)
    as [L S].
  split.
  - apply L; discriminate.
  - apply S; discriminate.
Defined.

(** A failed load hands [None] to the harmonizer, which raises. *)
Example absent_dataset_escapes_harmonizer :
  outcome (load_dataframe ascii_lower empty_session "a.json" "json" None) = Return None
  /\ outcome (process_dataframe ascii_lower fold_long_s None [("ID", "id")] ["id"; "name"; "city"])
     = Raise (AttributeError "columns")
  /\ outcome (process_dataframe ascii_lower fold_long_s None [] []) = Raise (AttributeError "columns").
Proof. repeat split. Qed.

Lemma parquet_write_is_overwrite :
  "overwrite" = "overwrite" /\ [("compression", "snappy")]
                               = items (Some [("compression", "snappy")])
  /\ "out" = "out"
  /\ writer_format ascii_lower "Parquet" = Some Parquet
  /\ Some markets_a <> None.
Proof.
  refine (save_dataframe_writes_overwrite ascii_lower accepting_sink
            (Some markets_a) "out" "Parquet"
            (Some [("compression", "snappy")])
            Parquet "overwrite" [("compression", "snappy")] "out" _).
  right. now left.
Defined.

Lemma xy_yz_union_rectangular :
  exists u,
    outcome (union_dataframes fold_long_s ascii_lower legacy_widerType legacy_cast (Some left_xy) (Some right_yz)) = Return (Some u)
    /\ well_formed u /\ count u = 3.
Proof.
  eexists. split; [reflexivity|].
  refine (let H := union_dataframes_well_formed fold_long_s ascii_lower
                     legacy_widerType legacy_cast left_xy right_yz _ _ _ _
          in conj (proj1 H) (proj1 (proj2 H))).
  - repeat constructor.
  - repeat constructor.
  - reflexivity.
Defined.

Lemma markets_b_present_untouched :
  outcome (process_dataframe ascii_lower fold_long_s (Some markets_b) [] ["id"; "CITY"])
  = Return (Some markets_b).
Proof.
  refine (f_equal snd (required_present_untouched ascii_lower fold_long_s
                         markets_b ["id"; "CITY"] _)).
  repeat constructor; cbn; tauto.
Defined.

Lemma markets_b_harmonized_twice :
  exists h,
    outcome (process_dataframe ascii_lower fold_long_s (Some markets_b) [("ID", "id")]
                       ["id"; "name"; "city"]) = Return (Some h)
    /\ outcome (process_dataframe ascii_lower fold_long_s (Some h) [] ["id"; "name"; "city"])
       = Return (Some h).
Proof.
  eexists. split; [reflexivity|].
  refine (harmonizing_again_changes_nothing ascii_lower fold_long_s
            markets_b _ [("ID", "id")] ["id"; "name"; "city"] _ _);
    reflexivity.
Defined.

Lemma markets_a_key_case_skipped :
  outcome (process_dataframe ascii_lower fold_long_s (Some markets_a) [("ID", "id")] ["city"])
  = outcome (process_dataframe ascii_lower fold_long_s (Some markets_a) [] ["city"]).
Proof.
  refine (proj1 (absent_keys_are_skipped ascii_lower fold_long_s markets_a
                   [("ID", "id")] ["city"] _)).
  repeat constructor. not_in_list.
Defined.

Lemma markets_b_appended_shape :
  exists r d' appended,
    outcome (process_dataframe ascii_lower fold_long_s (Some markets_b) [("ID", "id")] [])
    = Return (Some r)
    /\ outcome (process_dataframe ascii_lower fold_long_s (Some markets_b) [("ID", "id")]
                          ["id"; "name"; "city"])
       = Return (Some d')
    /\ cols d' = cols r ++ appended
    /\ length appended <= 3.
Proof.
  destruct (appended_columns_shape ascii_lower fold_long_s markets_b
              [("ID", "id")] ["id"; "name"; "city"] eq_refl)
    as [r [d' [appended [H1 [H2 [H3 [H4 _]]]]]]].
  exists r, d', appended. repeat split; assumption.
Defined.

Lemma markets_a_names_stay_distinct :
  exists d',
    outcome (process_dataframe ascii_lower fold_long_s (Some markets_a) [] ["City"; "city"; "ID"])
    = Return (Some d')
    /\ distinct_names fold_long_s d'.
Proof.
  refine (harmonizer_keeps_names_distinct ascii_lower fold_long_s markets_a
            markets_a [] ["City"; "city"; "ID"] _ _); reflexivity.
Defined.


Lemma markets_pipeline_union :
  exists h1 h2 u,
    outcome (process_dataframe ascii_lower fold_long_s (Some markets_a) []
                               ["id"; "name"; "city"])
    = Return (Some h1)
    /\ outcome (process_dataframe ascii_lower fold_long_s (Some markets_b)
                                  [("ID", "id")] ["id"; "name"; "city"])
       = Return (Some h2)
    /\ outcome (union_dataframes fold_long_s ascii_lower legacy_widerType
                                 legacy_cast (Some h1) (Some h2))
       = Return (Some u)
    /\ Forall (fun r => In (ascii_lower r) (map ascii_lower (columns u)))
              ["id"; "name"; "city"]
    /\ count u = count markets_a + count markets_b.
Proof.
  do 3 eexists. split; [reflexivity|]. split; [reflexivity|].
  split; [reflexivity|].
  pose proof (harmonize_then_union ascii_lower fold_long_s ascii_lower
                legacy_widerType legacy_cast markets_a markets_b _ _ _
                [] [("ID", "id")] ["id"; "name"; "city"]
                eq_refl eq_refl eq_refl) as H.
  split; [apply (proj1 H); reflexivity | exact (proj1 (proj2 H))].
Defined.

Lemma markets_b_columns_kept :
  exists d' kept appended,
    outcome (process_dataframe ascii_lower fold_long_s (Some markets_b) [("ID", "id")]
                       ["id"; "name"; "city"]) = Return (Some d')
    /\ cols d' = kept ++ appended
    /\ nrows d' = nrows markets_b
    /\ length kept = length (cols markets_b).
Proof.
  destruct (harmonization_keeps_columns_when_names_agree ascii_lower
              fold_long_s markets_b [("ID", "id")] ["id"; "name"; "city"]
              eq_refl)
    as [d' [kept [appended [H1 [H2 [H3 H4]]]]]].
  exists d', kept, appended. repeat split; try assumption.
  symmetry. exact (Forall2_length H4).
Defined.

Lemma markets_b_required_present :
  exists d',
    outcome (process_dataframe ascii_lower fold_long_s (Some markets_b) [("ID", "id")]
                       ["id"; "name"; "city"]) = Return (Some d')
    /\ Forall (fun r => In (ascii_lower r) (map ascii_lower (columns d')))
              ["id"; "name"; "city"].
Proof.
  exact (required_columns_present_when_names_agree ascii_lower fold_long_s
           markets_b [("ID", "id")] ["id"; "name"; "city"] eq_refl).
Defined.
